(** * rwkv.cpp: the public handle API of the RWKV inference runtime

    A shallow embedding of [src/rwkv.cpp]: context construction
    ([rwkv_init_from_file], [rwkv_clone_context]), teardown ([rwkv_free]),
    the length accessors and the error slot.  The C++ heap is an explicit
    store: live [rwkv_context] and [rwkv_model] objects are finite maps from
    addresses to records, live ggml arenas a finite set of addresses.  A
    function that dereferences a null or dangling pointer has undefined
    behaviour, which the embedding renders as [None].

    The loader, the graph builder and the evaluator live in the .inc files
    that rwkv.cpp includes.  Where a property needs them they are modelled
    from the specification, and what they decide is supplied by an
    [environment]. *)

From Stdlib Require Import ZArith Lia Ascii.
From stdpp Require Import base option gmap strings pretty.

Open Scope Z_scope.

(** ** Machine integers *)

(** [size_t] is taken to be 64 bits wide; arithmetic in it wraps around. *)
Definition SIZE_WIDTH : Z := 64.
Definition SIZE_MAX : Z := 2 ^ SIZE_WIDTH - 1.
Definition UINT32_MAX : Z := 2 ^ 32 - 1.
Definition INT64_MAX : Z := 2 ^ 63 - 1.

(** The conversion [(size_t) z]. *)
Definition to_size_t (z : Z) : Z := z mod 2 ^ SIZE_WIDTH.

(** [a * b] when both operands have been converted to [size_t]. *)
Definition size_mul (a b : Z) : Z := to_size_t (to_size_t a * to_size_t b).

(** ** Pointers *)

(** A non-null address.  A C pointer is a [handle]: [None] is [NULL]. *)
Definition ptr : Set := positive.
Definition handle : Set := option ptr.

(** ** Error flags *)

(** Modelled from the spec: [enum rwkv_error_flags] is declared in rwkv.h,
    which is not among the sources.  Error reporting is flag based and
    rwkv.cpp combines the values with [|], so they are bit sets;
    [RWKV_ERROR_NONE] is the empty one. *)
Definition rwkv_error_flags : Set := Z.
Definition RWKV_ERROR_NONE : rwkv_error_flags := 0.

(** ** Structures *)

(** Modelled from the spec: [struct rwkv_file_header] is declared in
    rwkv_file_format.inc, which is not among the sources.  The fields are
    those the container format stores (magic, format version, vocabulary
    size, embedding width, layer count, default element type), all
    fixed-width unsigned 32-bit integers, under the names rwkv.cpp reads
    them by. *)
Record rwkv_file_header : Set := mk_header {
  magic : Z;
  version : Z;
  n_vocab : Z;
  n_embed : Z;
  n_layer : Z;
  data_type : Z
}.

(** Modelled from the spec: [struct rwkv_model] is declared in
    rwkv_model_loading.inc, which is not among the sources.  Of its
    members only those rwkv.cpp touches are kept: the weight arena, the
    header, the derived architecture version (unsigned 32 bits) and head
    width (signed 64 bits), and the reference count.  The count is an
    [int]; running it up to its limit would take 2^31 live clones and is
    not followed here. *)
Record rwkv_model : Set := mk_model {
  model_ggml_ctx : handle;
  header : rwkv_file_header;
  arch_version_major : Z;
  head_size : Z;
  reference_count : Z
}.

(** Modelled from the spec: [struct rwkv_computation_graph] is declared in
    rwkv_graph.inc, which is not among the sources.  rwkv.cpp touches only
    the scratch arena the graph owns. *)
Record rwkv_computation_graph : Set := mk_graph {
  ggml_ctx : handle
}.

(** Modelled from the spec: [struct rwkv_context] is declared in
    rwkv_graph.inc, which is not among the sources.  The members are the
    ones the data model lists and rwkv.cpp names: the model, the two
    graphs, the token length of the last multi-step graph built, the
    thread count, the error slot and the diagnostics flag. *)
Record rwkv_context : Set := mk_context {
  model : handle;
  serial_graph : rwkv_computation_graph;
  sequential_graph : rwkv_computation_graph;
  last_used_sequence_length : Z;
  n_threads : Z;
  last_error : rwkv_error_flags;
  print_errors : bool
}.

(** The store: live objects and the two process-wide variables. *)
Record state : Type := mk_state {
  contexts : gmap ptr rwkv_context;
  models : gmap ptr rwkv_model;
  arenas : gset ptr;
  global_last_error : rwkv_error_flags;
  global_print_errors : bool
}.

(** *** Field updates *)

Definition set_reference_count (n : Z) (m : rwkv_model) : rwkv_model :=
  mk_model (model_ggml_ctx m) (header m) (arch_version_major m) (head_size m) n.

Definition set_model (h : handle) (c : rwkv_context) : rwkv_context :=
  mk_context h (serial_graph c) (sequential_graph c)
    (last_used_sequence_length c) (n_threads c) (last_error c) (print_errors c).

Definition set_serial_graph (g : rwkv_computation_graph) (c : rwkv_context)
  : rwkv_context :=
  mk_context (model c) g (sequential_graph c)
    (last_used_sequence_length c) (n_threads c) (last_error c) (print_errors c).

Definition set_sequential_graph (g : rwkv_computation_graph) (c : rwkv_context)
  : rwkv_context :=
  mk_context (model c) (serial_graph c) g
    (last_used_sequence_length c) (n_threads c) (last_error c) (print_errors c).

Definition set_last_used_sequence_length (n : Z) (c : rwkv_context)
  : rwkv_context :=
  mk_context (model c) (serial_graph c) (sequential_graph c)
    n (n_threads c) (last_error c) (print_errors c).

Definition set_n_threads (n : Z) (c : rwkv_context) : rwkv_context :=
  mk_context (model c) (serial_graph c) (sequential_graph c)
    (last_used_sequence_length c) n (last_error c) (print_errors c).

Definition set_last_error (e : rwkv_error_flags) (c : rwkv_context)
  : rwkv_context :=
  mk_context (model c) (serial_graph c) (sequential_graph c)
    (last_used_sequence_length c) (n_threads c) e (print_errors c).

Definition set_print_errors (b : bool) (c : rwkv_context) : rwkv_context :=
  mk_context (model c) (serial_graph c) (sequential_graph c)
    (last_used_sequence_length c) (n_threads c) (last_error c) b.

Definition with_contexts (cs : gmap ptr rwkv_context) (st : state) : state :=
  mk_state cs (models st) (arenas st)
    (global_last_error st) (global_print_errors st).

Definition with_models (ms : gmap ptr rwkv_model) (st : state) : state :=
  mk_state (contexts st) ms (arenas st)
    (global_last_error st) (global_print_errors st).

Definition with_arenas (a : gset ptr) (st : state) : state :=
  mk_state (contexts st) (models st) a
    (global_last_error st) (global_print_errors st).

Definition with_global_last_error (e : rwkv_error_flags) (st : state) : state :=
  mk_state (contexts st) (models st) (arenas st) e (global_print_errors st).

Definition with_global_print_errors (b : bool) (st : state) : state :=
  mk_state (contexts st) (models st) (arenas st) (global_last_error st) b.

(** *** Dereferencing *)

(** [*ctx] for a context pointer: undefined on a null or dangling one. *)
Definition deref_context (h : handle) (st : state) : option rwkv_context :=
  c ← h; contexts st !! c.

(** [*ctx->model]. *)
Definition deref_model (h : handle) (st : state) : option rwkv_model :=
  ctx ← deref_context h st; mp ← model ctx; models st !! mp.

(** ** Accessors *)

(** [rwkv_get_n_vocab], [rwkv_get_n_embed], [rwkv_get_n_layer]. *)
Definition rwkv_get_n_vocab (ctx : handle) (st : state) : option Z :=
  m ← deref_model ctx st; Some (to_size_t (n_vocab (header m))).

Definition rwkv_get_n_embed (ctx : handle) (st : state) : option Z :=
  m ← deref_model ctx st; Some (to_size_t (n_embed (header m))).

Definition rwkv_get_n_layer (ctx : handle) (st : state) : option Z :=
  m ← deref_model ctx st; Some (to_size_t (n_layer (header m))).

(** The arithmetic of [rwkv_get_state_len] on the model it reads. *)
Definition state_len_of (m : rwkv_model) : Z :=
  if 5 <=? arch_version_major m then
    size_mul (size_mul (n_embed (header m)) (2 + head_size m))
             (n_layer (header m))
  else
    size_mul (size_mul (n_embed (header m)) 5) (n_layer (header m)).

(** [rwkv_get_state_len]. *)
Definition rwkv_get_state_len (ctx : handle) (st : state) : option Z :=
  m ← deref_model ctx st; Some (state_len_of m).

(** [rwkv_get_logits_len]. *)
Definition rwkv_get_logits_len (ctx : handle) (st : state) : option Z :=
  m ← deref_model ctx st; Some (to_size_t (n_vocab (header m))).

(** The two entry points kept for backwards compatibility return
    [uint32_t]: the [size_t] result is truncated to 32 bits. *)
Definition rwkv_get_state_buffer_element_count (ctx : handle) (st : state)
  : option Z :=
  n ← rwkv_get_state_len ctx st; Some (n mod 2 ^ 32).

Definition rwkv_get_logits_buffer_element_count (ctx : handle) (st : state)
  : option Z :=
  n ← rwkv_get_logits_len ctx st; Some (n mod 2 ^ 32).

(** ** The error slot and the diagnostics flag *)

(** [rwkv_set_print_errors]. *)
Definition rwkv_set_print_errors (ctx : handle) (b : bool) (st : state)
  : option state :=
  match ctx with
  | Some c =>
      x ← contexts st !! c;
      Some (with_contexts (<[c := set_print_errors b x]> (contexts st)) st)
  | None => Some (with_global_print_errors b st)
  end.

(** [rwkv_get_print_errors]. *)
Definition rwkv_get_print_errors (ctx : handle) (st : state) : option bool :=
  match ctx with
  | Some c => x ← contexts st !! c; Some (print_errors x)
  | None => Some (global_print_errors st)
  end.

(** [rwkv_get_last_error]: read the addressed slot, then clear it. *)
Definition rwkv_get_last_error (ctx : handle) (st : state)
  : option (rwkv_error_flags * state) :=
  match ctx with
  | Some c =>
      x ← contexts st !! c;
      Some (last_error x,
            with_contexts
              (<[c := set_last_error RWKV_ERROR_NONE x]> (contexts st)) st)
  | None =>
      Some (global_last_error st, with_global_last_error RWKV_ERROR_NONE st)
  end.

(** The slot [rwkv_get_last_error] addresses:
    [ctx ? &ctx->last_error : &global_last_error]. *)
Definition error_slot (ctx : handle) (st : state) : option rwkv_error_flags :=
  match ctx with
  | Some c => last_error <$> contexts st !! c
  | None => Some (global_last_error st)
  end.

(** ** Allocation *)

(** [ggml_free] of the tensor library: the arena stops being live.  A null
    argument leaves the store as it is. *)
Definition ggml_free (a : handle) (st : state) : state :=
  match a with
  | Some p => with_arenas (arenas st ∖ {[p]}) st
  | None => st
  end.

(** A fresh arena, as ggml hands one out. *)
Definition ggml_init (st : state) : ptr * state :=
  let a := fresh (arenas st) in (a, with_arenas ({[a]} ∪ arenas st) st).

(** Modelled from the spec: what [new rwkv_context()] constructs, the
    structure being declared outside rwkv.cpp.  The object is
    value-initialised: every scalar zero, every pointer null. *)
Definition zero_context : rwkv_context :=
  mk_context None (mk_graph None) (mk_graph None) 0 0 RWKV_ERROR_NONE false.

(** Modelled from the spec: what [new rwkv_model()] constructs, the
    structure being declared outside rwkv.cpp: no arena, a count of zero.
    The header and the derived fields are placeholders until the loader
    writes them. *)
Definition zero_model : rwkv_model :=
  mk_model None (mk_header 0 0 0 0 0 0) 0 0 0.

(** [new(std::nothrow) struct rwkv_context()]: null when the allocator
    refuses ([ok = false]), otherwise an address no live context has. *)
Definition new_context (ok : bool) (st : state) : handle * state :=
  if ok then
    let c := fresh (dom (contexts st)) in
    (Some c, with_contexts (<[c := zero_context]> (contexts st)) st)
  else (None, st).

(** [new(std::nothrow) struct rwkv_model()]. *)
Definition new_model (ok : bool) (st : state) : handle * state :=
  if ok then
    let m := fresh (dom (models st)) in
    (Some m, with_models (<[m := zero_model]> (models st)) st)
  else (None, st).

(** [delete] of a context, as [std::unique_ptr] does when it goes out of
    scope still owning it. *)
Definition delete_context (c : ptr) (st : state) : state :=
  with_contexts (delete c (contexts st)) st.

(** [delete ctx->model]. *)
Definition delete_model (m : ptr) (st : state) : state :=
  with_models (delete m (models st)) st.

(** A store through a context pointer. *)
Definition update_context (c : ptr) (f : rwkv_context → rwkv_context)
    (st : state) : option state :=
  x ← contexts st !! c;
  Some (with_contexts (<[c := f x]> (contexts st)) st).

(** A store through a model pointer. *)
Definition update_model (m : ptr) (f : rwkv_model → rwkv_model)
    (st : state) : option state :=
  x ← models st !! m;
  Some (with_models (<[m := f x]> (models st)) st).

(** [global_last_error |= e]. *)
Definition raise_global (e : rwkv_error_flags) (st : state) : state :=
  with_global_last_error (Z.lor (global_last_error st) e) st.

(** ** What the environment decides *)

(** What the loader derives from a well-formed model file. *)
Record loaded_model : Set := mk_loaded {
  lm_header : rwkv_file_header;
  lm_arch_version_major : Z;
  lm_head_size : Z
}.

Inductive load_outcome : Set :=
| LoadFailed (e : rwkv_error_flags)
| Loaded (lm : loaded_model).

Inductive build_outcome : Set :=
| BuildFailed (e : rwkv_error_flags)
| Built.

(** Everything a constructor call depends on beyond its arguments: whether
    the two [new] succeed, what lies behind each file path, and whether
    the graph builder succeeds. *)
Record environment : Type := mk_env {
  alloc_context : bool;
  alloc_model : bool;
  fs : string → load_outcome;
  build : build_outcome
}.

(** Modelled from the spec: [rwkv_load_model_from_file] of
    rwkv_model_loading.inc, which is not among the sources.  On success the
    model receives its header, its derived architecture fields and one
    arena holding every tensor; on failure an error is recorded and no
    partial arena is retained.  The model object itself belongs to the
    caller and is not released here. *)
Definition rwkv_load_model_from_file (files : string → load_outcome)
    (file_path : string) (m : ptr) (st : state) : option (bool * state) :=
  x ← models st !! m;
  match files file_path with
  | LoadFailed e => Some (false, raise_global e st)
  | Loaded lm =>
      let '(a, st) := ggml_init st in
      let x' := mk_model (Some a) (lm_header lm) (lm_arch_version_major lm)
                  (lm_head_size lm) (reference_count x) in
      Some (true, with_models (<[m := x']> (models st)) st)
  end.

(** Modelled from the spec: [rwkv_measure_and_build_serial_context] of
    rwkv_graph.inc, which is not among the sources.  On success the
    single-step graph of the context owns a new scratch arena; on failure
    an error is recorded and nothing is retained. *)
Definition rwkv_measure_and_build_serial_context (o : build_outcome)
    (m : ptr) (c : ptr) (st : state) : option (bool * state) :=
  _ ← models st !! m;
  x ← contexts st !! c;
  match o with
  | BuildFailed e => Some (false, raise_global e st)
  | Built =>
      let '(a, st) := ggml_init st in
      Some (true,
            with_contexts
              (<[c := set_serial_graph (mk_graph (Some a)) x]> (contexts st))
              st)
  end.

(** ** Construction and teardown *)

Section Construction.

(** The two enumerators of [rwkv_error_flags] that rwkv.cpp raises
    itself; their values are fixed in rwkv.h. *)
Variables RWKV_ERROR_CTX RWKV_ERROR_ALLOC : rwkv_error_flags.

(** [rwkv_init_from_file].  [RWKV_ASSERT_NULL_MSG] records its error
    and returns null when its condition fails; [RWKV_ENSURE_OR_NULL]
    returns null when the call it wraps reports failure.  On either
    early return the [std::unique_ptr] deletes the context object. *)
Definition rwkv_init_from_file (env : environment) (file_path : string)
    (threads : Z) (st : state) : option (handle * state) :=
  let st := with_global_last_error RWKV_ERROR_NONE st in
  match new_context (alloc_context env) st with
  | (None, st) =>
      Some (None, raise_global (Z.lor RWKV_ERROR_CTX RWKV_ERROR_ALLOC) st)
  | (Some c, st) =>
      let '(m, st) := new_model (alloc_model env) st in
      st ← update_context c (set_model m) st;
      mp ← m;
      st ← update_model mp
             (λ x, set_reference_count (reference_count x + 1) x) st;
      '(ok, st) ← rwkv_load_model_from_file (fs env) file_path mp st;
      if negb ok then Some (None, delete_context c st) else
      st ← update_context c (set_n_threads threads) st;
      '(ok, st) ← rwkv_measure_and_build_serial_context (build env) mp c st;
      if negb ok then Some (None, delete_context c st) else
      Some (Some c, st)
  end.

(** [rwkv_clone_context]. *)
Definition rwkv_clone_context (env : environment) (ctx : handle)
    (threads : Z) (st : state) : option (handle * state) :=
  match new_context (alloc_context env) st with
  | (None, st) =>
      Some (None, raise_global (Z.lor RWKV_ERROR_CTX RWKV_ERROR_ALLOC) st)
  | (Some c, st) =>
      src ← deref_context ctx st;
      st ← update_context c (set_model (model src)) st;
      mp ← model src;
      st ← update_model mp
             (λ x, set_reference_count (reference_count x + 1) x) st;
      st ← update_context c (set_n_threads threads) st;
      '(ok, st) ← rwkv_measure_and_build_serial_context (build env) mp c st;
      if negb ok then Some (None, delete_context c st) else
      st ← update_context c (set_last_used_sequence_length 0) st;
      src ← deref_context ctx st;
      st ← update_context c (set_print_errors (print_errors src)) st;
      Some (Some c, st)
  end.

(** [rwkv_free]. *)
Definition rwkv_free (ctx : handle) (st : state) : option state :=
  match ctx with
  | None => Some st
  | Some c =>
      x ← contexts st !! c;
      mp ← model x;
      m ← models st !! mp;
      let n := reference_count m - 1 in
      let st :=
        with_models (<[mp := set_reference_count n m]> (models st)) st in
      let st := if n =? 0
                then delete_model mp (ggml_free (model_ggml_ctx m) st)
                else st in
      let st := ggml_free (ggml_ctx (serial_graph x)) st in
      let st := if 0 <? last_used_sequence_length x
                then ggml_free (ggml_ctx (sequential_graph x)) st
                else st in
      Some (delete_context c st)
  end.

(** ** Sequences of API calls *)

(** One call of the handle API, with what the environment decides for it. *)
Inductive api_call : Type :=
| CallInit (env : environment) (file_path : string) (threads : Z)
| CallClone (env : environment) (ctx : handle) (threads : Z)
| CallFree (ctx : handle)
| CallGetLastError (ctx : handle)
| CallSetPrintErrors (ctx : handle) (b : bool).

(** The effect of one call on the store; the value returned to the caller
    is dropped. *)
Definition api_step (call : api_call) (st : state) : option state :=
  match call with
  | CallInit env file_path threads =>
      snd <$> rwkv_init_from_file env file_path threads st
  | CallClone env ctx threads =>
      snd <$> rwkv_clone_context env ctx threads st
  | CallFree ctx => rwkv_free ctx st
  | CallGetLastError ctx => snd <$> rwkv_get_last_error ctx st
  | CallSetPrintErrors ctx b => rwkv_set_print_errors ctx b st
  end.

(** A program: calls one after the other, undefined as soon as one is. *)
Fixpoint run_calls (calls : list api_call) (st : state) : option state :=
  match calls with
  | [] => Some st
  | call :: rest => st' ← api_step call st; run_calls rest st'
  end.

End Construction.

(** A store in which nothing has been allocated yet. *)
Definition empty_store (st : state) : Prop :=
  contexts st = ∅ ∧ models st = ∅.

(** ** Reference counting *)

(** The number of live contexts whose [model] member is [mp]. *)
Definition refs (cs : gmap ptr rwkv_context) (mp : ptr) : nat :=
  size (filter (λ kv : ptr * rwkv_context, model kv.2 = Some mp) cs).

(** Every live context points to a live model, and no live model is
    referenced by more live contexts than its count says. *)
Definition heap_ok (cs : gmap ptr rwkv_context) (ms : gmap ptr rwkv_model)
  : Prop :=
  (∀ c x, cs !! c = Some x →
          ∃ mp m, model x = Some mp ∧ ms !! mp = Some m) ∧
  (∀ mp m, ms !! mp = Some m → Z.of_nat (refs cs mp) ≤ reference_count m).

Definition store_ok (st : state) : Prop :=
  heap_ok (contexts st) (models st).

(** The members of a model that the length accessors read. *)
Definition shape (m : rwkv_model) : Z * Z * Z * Z * Z :=
  (n_vocab (header m), n_embed (header m), n_layer (header m),
   arch_version_major m, head_size m).

(** The members are within the range of their C types. *)
Definition well_typed (m : rwkv_model) : Prop :=
  0 ≤ n_vocab (header m) ≤ UINT32_MAX ∧
  0 ≤ n_embed (header m) ≤ UINT32_MAX ∧
  0 ≤ n_layer (header m) ≤ UINT32_MAX ∧
  0 ≤ arch_version_major m ≤ UINT32_MAX ∧
  0 ≤ head_size m ≤ INT64_MAX - 2.

(** The state length as the specification writes it, over the integers. *)
Definition documented_state_len (m : rwkv_model) : Z :=
  if 5 <=? arch_version_major m then
    n_embed (header m) * (2 + head_size m) * n_layer (header m)
  else
    n_embed (header m) * 5 * n_layer (header m).

(** ** Calls on which nothing fails after the count has been raised *)

(** The file loads and the graph builds. *)
Definition clean_environment (env : environment) (file_path : string) : Prop :=
  (∀ e, fs env file_path ≠ LoadFailed e) ∧ (∀ e, build env ≠ BuildFailed e).

Definition clean_call (call : api_call) : Prop :=
  match call with
  | CallInit env file_path _ => clean_environment env file_path
  | CallClone env _ _ => build env = Built
  | _ => True
  end.

(** No live model has a count above the number of live contexts
    referencing it, and none has a count below one. *)
Definition counts_tight (cs : gmap ptr rwkv_context)
    (ms : gmap ptr rwkv_model) : Prop :=
  ∀ mp m, ms !! mp = Some m →
          1 ≤ reference_count m ≤ Z.of_nat (refs cs mp).

(** ** Evaluation *)

(** Modelled from the spec: the multi-step graph builder of rwkv_graph.inc,
    which is not among the sources.  On success the multi-step graph of
    the context owns a new scratch arena sized for [sequence_len] tokens;
    on failure an error is recorded and nothing is retained. *)
Definition rwkv_measure_and_build_sequential_context (o : build_outcome)
    (c : ptr) (sequence_len : Z) (st : state) : option (bool * state) :=
  x ← contexts st !! c;
  match o with
  | BuildFailed e => Some (false, raise_global e st)
  | Built =>
      let '(a, st) := ggml_init st in
      Some (true,
            with_contexts
              (<[c := set_sequential_graph (mk_graph (Some a)) x]>
                 (contexts st))
              st)
  end.

(** What a multi-step request did about the multi-step graph. *)
Inductive graph_action : Set :=
| Reused
| Rebuilt
| RebuildFailed.

(** Modelled from the spec: the choice of the multi-step graph at the
    head of a multi-step evaluation (rwkv_eval.inc, which is not among the
    sources).  The graph is rebuilt, replacing the previous one, exactly
    when the requested token count differs from the context's last-built
    length.  The previous arena is released only once the new graph
    stands, under the test [rwkv_free] applies to it, so that a failed
    build leaves the context as it was. *)
Definition select_sequential_graph (o : build_outcome) (ctx : handle)
    (sequence_len : Z) (st : state) : option (graph_action * state) :=
  c ← ctx;
  x ← contexts st !! c;
  if last_used_sequence_length x =? sequence_len then Some (Reused, st)
  else
    '(ok, st) ← rwkv_measure_and_build_sequential_context o c sequence_len st;
    if negb ok then Some (RebuildFailed, st) else
    let st := if 0 <? last_used_sequence_length x
              then ggml_free (ggml_ctx (sequential_graph x)) st
              else st in
    st ← update_context c (set_last_used_sequence_length sequence_len) st;
    Some (Rebuilt, st).

(** Whether a call rebuilt the multi-step graph of the context at [c]: in
    the store the call leaves, the graph owns a live arena that was not
    live when the call began. *)
Definition multi_step_graph_rebuilt (c : ptr) (st st' : state) : Prop :=
  ∃ x' g,
    contexts st' !! c = Some x'
    ∧ ggml_ctx (sequential_graph x') = Some g
    ∧ g ∈ arenas st'
    ∧ g ∉ arenas st.

(** Modelled from the spec: how a check that fails inside a call on a
    context reports its error (the macros are declared in
    rwkv_error_handling.inc, which is not among the sources).  Reporting is
    flag based and the error is retrievable after the call: the flag is
    added to the context's own slot, the one [rwkv_get_last_error] reads
    and clears for this context.  The optional message on the diagnostic
    stream is not part of the store. *)
Definition raise_context (e : rwkv_error_flags) (c : ptr) (st : state)
  : option state :=
  update_context c (λ x, set_last_error (Z.lor (last_error x) e) x) st.

Section Evaluator.

(** The element type of state and logits buffers. *)
Variable number : Type.

(** The enumerator of [rwkv_error_flags] for an invalid argument. *)
Variable RWKV_ERROR_ARGS : rwkv_error_flags.

(** The tensor library running a built graph of a model on the tokens and
    the previous state: the next state and the logits. *)
Variable execute :
  rwkv_model → list Z → list number → list number * list number.

(** Modelled from the spec: the preconditions of evaluation (rwkv_eval.inc,
    which is not among the sources): both state buffers have the model's
    derived state length and the logits buffer has the vocabulary size. *)
Definition buffers_fit (ctx : handle) (state_in state_out logits_out
    : list number) (st : state) : option bool :=
  n ← rwkv_get_state_len ctx st;
  v ← rwkv_get_logits_len ctx st;
  Some ((Z.of_nat (length state_in) =? n)
        && (Z.of_nat (length state_out) =? n)
        && (Z.of_nat (length logits_out) =? v)).

(** Modelled from the spec: single-step evaluation (rwkv_eval.inc, which is
    not among the sources).  Returns the error kind and what the two output
    buffers hold afterwards.  A call whose buffers do not fit records the
    argument error in the context's slot and returns before the graph
    runs. *)
Definition rwkv_eval (ctx : handle) (token : Z)
    (state_in state_out logits_out : list number) (st : state)
  : option (rwkv_error_flags * list number * list number * state) :=
  c ← ctx;
  m ← deref_model ctx st;
  fit ← buffers_fit ctx state_in state_out logits_out st;
  if negb fit then
    st ← raise_context RWKV_ERROR_ARGS c st;
    Some (RWKV_ERROR_ARGS, state_out, logits_out, st)
  else
  let '(s, l) := execute m [token] state_in in
  Some (RWKV_ERROR_NONE, s, l, st).

(** Modelled from the spec: multi-step evaluation (rwkv_eval.inc, which is
    not among the sources).  The buffers are checked first, as in the
    single-step call, so that a rejected request leaves the graphs of the
    context alone; the error of a failed build has been recorded by the
    builder. *)
Definition rwkv_eval_sequence (o : build_outcome) (ctx : handle)
    (tokens : list Z) (state_in state_out logits_out : list number)
    (st : state)
  : option (rwkv_error_flags * list number * list number * state) :=
  c ← ctx;
  m ← deref_model ctx st;
  fit ← buffers_fit ctx state_in state_out logits_out st;
  if negb fit then
    st ← raise_context RWKV_ERROR_ARGS c st;
    Some (RWKV_ERROR_ARGS, state_out, logits_out, st)
  else
  '(a, st) ← select_sequential_graph o ctx (Z.of_nat (length tokens)) st;
  match a, o with
  | RebuildFailed, BuildFailed e => Some (e, state_out, logits_out, st)
  | _, _ =>
      let '(s, l) := execute m tokens state_in in
      Some (RWKV_ERROR_NONE, s, l, st)
  end.

End Evaluator.

Arguments buffers_fit {number}.
Arguments rwkv_eval {number}.
Arguments rwkv_eval_sequence {number}.

(** ** Sample environments and stores *)

Definition sample_loaded : loaded_model :=
  mk_loaded (mk_header 0 101 65536 4096 32 0) 5 64.

(** Everything succeeds. *)
Definition good_env : environment :=
  mk_env true true (λ _, Loaded sample_loaded) Built.

(** [new rwkv_model()] returns null. *)
Definition no_model_env : environment :=
  mk_env true false (λ _, Loaded sample_loaded) Built.

(** The file cannot be loaded. *)
Definition no_file_env : environment :=
  mk_env true true (λ _, LoadFailed 514) Built.

(** The graph cannot be built. *)
Definition no_graph_env : environment :=
  mk_env true true (λ _, Loaded sample_loaded) (BuildFailed 1281).

(** The store of a process that has not called the API yet. *)
Definition boot_store : state := mk_state ∅ ∅ ∅ RWKV_ERROR_NONE true.

(** The model and the context that a successful
    [rwkv_init_from_file] leaves in [boot_store]. *)
Definition loaded_model_object : rwkv_model :=
  mk_model (Some 1%positive) (mk_header 0 101 65536 4096 32 0) 5 64 1.

Definition loaded_context : rwkv_context :=
  mk_context (Some 1%positive) (mk_graph (Some 2%positive)) (mk_graph None)
    0 4 RWKV_ERROR_NONE false.

Definition loaded_store : state :=
  mk_state {[ 1%positive := loaded_context ]}
    {[ 1%positive := loaded_model_object ]}
    {[ 1%positive; 2%positive ]} RWKV_ERROR_NONE true.

(** A clone on two threads, a read of the error slot, and the release of
    the clone. *)
Definition sample_calls : list api_call :=
  [ CallClone good_env (Some 1%positive) 2;
    CallGetLastError (Some 1%positive);
    CallFree (Some 2%positive) ].

(** A graph execution that hands the previous state on and produces no
    logits; it stands in for the tensor library in examples. *)
Definition idle_execute (m : rwkv_model) (tokens : list Z) (s : list Z)
  : list Z * list Z := (s, []).

(** A store with one context of a small version 4 model (2 channels, 1
    layer, 3 vocabulary entries): its state has 10 elements, its logits
    3.  No multi-step graph has been built. *)
Definition tiny_model : rwkv_model :=
  mk_model (Some 1%positive) (mk_header 0 101 3 2 1 0) 4 0 1.

Definition tiny_context : rwkv_context :=
  mk_context (Some 1%positive) (mk_graph (Some 2%positive)) (mk_graph None)
    0 1 RWKV_ERROR_NONE false.

Definition tiny_store : state :=
  mk_state {[ 1%positive := tiny_context ]} {[ 1%positive := tiny_model ]}
    {[ 1%positive; 2%positive ]} RWKV_ERROR_NONE true.

(** Buffers of the lengths the small model asks for. *)
Definition tiny_state : list Z := replicate 10%nat 0.
Definition tiny_logits : list Z := replicate 3%nat 0.

(** The small store once a multi-step graph for 3 tokens has been built
    in arena 3. *)
Definition tiny_context_3 : rwkv_context :=
  mk_context (Some 1%positive) (mk_graph (Some 2%positive))
    (mk_graph (Some 3%positive)) 3 1 RWKV_ERROR_NONE false.

Definition tiny_store_3 : state :=
  mk_state {[ 1%positive := tiny_context_3 ]} {[ 1%positive := tiny_model ]}
    {[ 1%positive; 2%positive; 3%positive ]} RWKV_ERROR_NONE true.

(** A store with one context of a version 5 model (4096 channels, 32
    layers, heads of width 64) whose error slot holds an error. *)
Definition sample_model : rwkv_model :=
  mk_model (Some 1%positive) (mk_header 0 101 65536 4096 32 0) 5 64 1.

Definition sample_context : rwkv_context :=
  mk_context (Some 1%positive) (mk_graph (Some 2%positive)) (mk_graph None)
    0 4 256 true.

Definition sample_store : state :=
  mk_state {[ 1%positive := sample_context ]} {[ 1%positive := sample_model ]}
    {[ 1%positive; 2%positive ]} 0 true.

(** A version 5 model whose state length does not fit in 32 bits:
    65536 channels, 1024 layers, heads of width 64. *)
Definition wide_model : rwkv_model :=
  mk_model (Some 1%positive) (mk_header 0 101 65536 65536 1024 0) 5 64 1.

Definition wide_store : state :=
  mk_state {[ 1%positive := loaded_context ]} {[ 1%positive := wide_model ]}
    {[ 1%positive; 2%positive ]} RWKV_ERROR_NONE true.

(** No memory for a context. *)
Definition no_context_env : environment :=
  mk_env false true (λ _, Loaded sample_loaded) Built.

(** The store after a successful initialisation and a successful clone
    on two threads. *)
Definition cloned_context : rwkv_context :=
  mk_context (Some 1%positive) (mk_graph (Some 3%positive)) (mk_graph None)
    0 2 RWKV_ERROR_NONE false.

Definition cloned_store : state :=
  mk_state {[ 1%positive := loaded_context; 2%positive := cloned_context ]}
    {[ 1%positive := set_reference_count 2 loaded_model_object ]}
    {[ 1%positive; 2%positive; 3%positive ]} RWKV_ERROR_NONE true.

Definition init_and_clone : list api_call :=
  [ CallInit good_env "rwkv.bin" 4; CallClone good_env (Some 1%positive) 2 ].

(** ** The system information string *)

(** What the twelve capability probes of the tensor library answer, each
    an [int]. *)
Record cpu_features : Set := mk_cpu_features {
  ggml_cpu_has_avx : Z;
  ggml_cpu_has_avx2 : Z;
  ggml_cpu_has_avx512 : Z;
  ggml_cpu_has_fma : Z;
  ggml_cpu_has_neon : Z;
  ggml_cpu_has_arm_fma : Z;
  ggml_cpu_has_f16c : Z;
  ggml_cpu_has_fp16_va : Z;
  ggml_cpu_has_wasm_simd : Z;
  ggml_cpu_has_blas : Z;
  ggml_cpu_has_sse3 : Z;
  ggml_cpu_has_vsx : Z
}.

(** [std::to_string] on an [int]: the decimal digits, after a minus sign
    for a negative number. *)
Definition to_string (z : Z) : string := pretty z.

(** The body of the [if (s.empty())] block of
    [rwkv_get_system_info_string]: the string assembled by [s = ""] and
    the twelve [s += ...]. *)
Definition system_info (f : cpu_features) : string :=
  let s := "" in
  let s := s +:+ (("AVX=" +:+ to_string (ggml_cpu_has_avx f)) +:+ " ") in
  let s := s +:+ (("AVX2=" +:+ to_string (ggml_cpu_has_avx2 f)) +:+ " ") in
  let s := s +:+ (("AVX512=" +:+ to_string (ggml_cpu_has_avx512 f)) +:+ " ") in
  let s := s +:+ (("FMA=" +:+ to_string (ggml_cpu_has_fma f)) +:+ " ") in
  let s := s +:+ (("NEON=" +:+ to_string (ggml_cpu_has_neon f)) +:+ " ") in
  let s := s +:+ (("ARM_FMA=" +:+ to_string (ggml_cpu_has_arm_fma f)) +:+ " ") in
  let s := s +:+ (("F16C=" +:+ to_string (ggml_cpu_has_f16c f)) +:+ " ") in
  let s := s +:+ (("FP16_VA=" +:+ to_string (ggml_cpu_has_fp16_va f)) +:+ " ") in
  let s :=
    s +:+ (("WASM_SIMD=" +:+ to_string (ggml_cpu_has_wasm_simd f)) +:+ " ") in
  let s := s +:+ (("BLAS=" +:+ to_string (ggml_cpu_has_blas f)) +:+ " ") in
  let s := s +:+ (("SSE3=" +:+ to_string (ggml_cpu_has_sse3 f)) +:+ " ") in
  let s := s +:+ ("VSX=" +:+ to_string (ggml_cpu_has_vsx f)) in
  s.

(** [rwkv_get_system_info_string].  The function-local [static
    std::string s] is threaded through: the second component is its value
    after the call, the first what the returned pointer reads.  The probes
    are consulted only when [s] is empty. *)
Definition rwkv_get_system_info_string (f : cpu_features) (s : string)
  : string * string :=
  let s := if decide (s = "") then system_info f else s in
  (s, s).

(** Whether a string holds a space. *)
Fixpoint has_space (s : string) : bool :=
  match s with
  | EmptyString => false
  | String a s => if decide (a = " "%char) then true else has_space s
  end.

(** A machine with AVX, AVX2, FMA, F16C and SSE3. *)
Definition sample_features : cpu_features :=
  mk_cpu_features 1 1 0 1 0 0 1 0 0 0 1 0.

(** ** Ownership of arenas *)

(** Every live context owns a live single-step arena and has no
    multi-step graph; every arena a live model holds is live; no arena has
    two owners; and the model of a live context holds a weight arena. *)
Definition arenas_owned (cs : gmap ptr rwkv_context)
    (ms : gmap ptr rwkv_model) (A : gset ptr) : Prop :=
  (∀ c x, cs !! c = Some x →
          last_used_sequence_length x = 0
          ∧ ∃ a, ggml_ctx (serial_graph x) = Some a ∧ a ∈ A)
  ∧ (∀ mp m a, ms !! mp = Some m → model_ggml_ctx m = Some a → a ∈ A)
  ∧ (∀ c1 c2 x1 x2, cs !! c1 = Some x1 → cs !! c2 = Some x2 →
       ggml_ctx (serial_graph x1) = ggml_ctx (serial_graph x2) → c1 = c2)
  ∧ (∀ mp1 mp2 m1 m2 a, ms !! mp1 = Some m1 → ms !! mp2 = Some m2 →
       model_ggml_ctx m1 = Some a → model_ggml_ctx m2 = Some a → mp1 = mp2)
  ∧ (∀ c x mp m a, cs !! c = Some x → ms !! mp = Some m →
       ggml_ctx (serial_graph x) = Some a → model_ggml_ctx m ≠ Some a)
  ∧ (∀ c x mp m, cs !! c = Some x → model x = Some mp →
       ms !! mp = Some m → is_Some (model_ggml_ctx m)).

(** Every live arena was live in [B] already or is the single-step arena
    of a live context or the weight arena of a live model. *)
Definition arenas_accounted (B : gset ptr) (cs : gmap ptr rwkv_context)
    (ms : gmap ptr rwkv_model) (A : gset ptr) : Prop :=
  ∀ a, a ∈ A →
       a ∈ B
       ∨ (∃ c x, cs !! c = Some x ∧ ggml_ctx (serial_graph x) = Some a)
       ∨ (∃ mp m, ms !! mp = Some m ∧ model_ggml_ctx m = Some a).

(** * Properties *)

(** ** Arithmetic in [size_t] *)

Lemma to_size_t_small (z : Z) : 0 ≤ z ≤ SIZE_MAX → to_size_t z = z.
Proof.
  unfold to_size_t, SIZE_MAX. intros Hz. apply Z.mod_small. lia.
Qed.

Lemma size_mul_mod (a b : Z) : size_mul a b = (a * b) mod 2 ^ SIZE_WIDTH.
Proof.
  unfold size_mul, to_size_t. symmetry. apply Z.mul_mod. discriminate.
Qed.

(** A product of three factors wraps once, at the end. *)
Lemma size_mul3_mod (a b c : Z) :
  size_mul (size_mul a b) c = (a * b * c) mod 2 ^ SIZE_WIDTH.
Proof.
  rewrite (size_mul_mod (size_mul a b) c), (size_mul_mod a b).
  apply Z.mul_mod_idemp_l. discriminate.
Qed.

Lemma size_mul3_exact (a b c : Z) :
  0 ≤ a * b * c ≤ SIZE_MAX → size_mul (size_mul a b) c = a * b * c.
Proof.
  intros H. rewrite size_mul3_mod. apply Z.mod_small.
  unfold SIZE_MAX in H. lia.
Qed.

(** [rwkv_get_state_len] always returns the specified product reduced
    modulo the width of [size_t]. *)
Lemma state_len_of_mod (m : rwkv_model) :
  state_len_of m = documented_state_len m mod 2 ^ SIZE_WIDTH.
Proof.
  unfold state_len_of, documented_state_len.
  destruct (5 <=? arch_version_major m); apply size_mul3_mod.
Qed.

Lemma documented_state_len_nonneg (m : rwkv_model) :
  well_typed m → 0 ≤ documented_state_len m.
Proof.
  intros (_ & He & Hl & _ & Hh). unfold documented_state_len.
  destruct (5 <=? arch_version_major m); nia.
Qed.

(** ** The state length *)

(** C1: for a context whose model has members within their C types and a
    state length that [size_t] can hold, [rwkv_get_state_len] returns
    embedding width * (2 + head width) * layer count when the architecture
    major version is at least 5 and embedding width * 5 * layer count
    otherwise; and any two contexts whose models agree on the architecture
    version, the embedding width, the layer count and the head width get
    the same length, whatever else the store holds. *)
Theorem rwkv_get_state_len_formula (ctx : handle) (st : state)
    (m : rwkv_model) :
  deref_model ctx st = Some m →
  well_typed m →
  documented_state_len m ≤ SIZE_MAX →
  rwkv_get_state_len ctx st =
    Some (if 5 <=? arch_version_major m
          then n_embed (header m) * (2 + head_size m) * n_layer (header m)
          else n_embed (header m) * 5 * n_layer (header m))
  ∧ ∀ ctx' st' m',
      deref_model ctx' st' = Some m' →
      arch_version_major m' = arch_version_major m →
      n_embed (header m') = n_embed (header m) →
      n_layer (header m') = n_layer (header m) →
      head_size m' = head_size m →
      rwkv_get_state_len ctx' st' = rwkv_get_state_len ctx st.
Proof.
  intros Hm Hwt Hfit. unfold rwkv_get_state_len. rewrite Hm. simpl. split.
  - f_equal. rewrite state_len_of_mod.
    pose proof (documented_state_len_nonneg m Hwt) as Hpos.
    rewrite Z.mod_small by (unfold SIZE_MAX in Hfit; lia).
    reflexivity.
  - intros ctx' st' m' Hm' Ha He Hl Hh. rewrite Hm'. simpl. f_equal.
    unfold state_len_of. rewrite Ha, He, Hl, Hh. reflexivity.
Qed.

Lemma rwkv_get_state_len_formula_witness :
  rwkv_get_state_len (Some 1%positive) sample_store = Some 8650752.
Proof.
  refine (proj1 (rwkv_get_state_len_formula (Some 1%positive) sample_store
                   sample_model _ _ _)).
  - reflexivity.
  - unfold well_typed; vm_compute; intuition discriminate.
  - vm_compute; discriminate.
Defined.

(** ** The error slot *)

(** C4: [rwkv_get_last_error] returns what the addressed slot holds and
    leaves the no-error value in it, so that an immediate second call
    returns no-error; the slot is the context's own when a context is
    passed and the process-wide one when none is, and no other slot
    changes. *)
Theorem rwkv_get_last_error_reads_and_clears (ctx : handle) (st : state)
    (e : rwkv_error_flags) :
  error_slot ctx st = Some e →
  ∃ st1,
    rwkv_get_last_error ctx st = Some (e, st1)
    ∧ error_slot ctx st1 = Some RWKV_ERROR_NONE
    ∧ rwkv_get_last_error ctx st1 = Some (RWKV_ERROR_NONE, st1)
    ∧ ∀ other, other ≠ ctx → error_slot other st1 = error_slot other st.
Proof.
  destruct ctx as [c|]; simpl.
  - destruct (contexts st !! c) as [x|] eqn:Hx; simpl; [|discriminate].
    intros [= <-]. eexists. split; [reflexivity|]. simpl.
    rewrite lookup_insert_eq. simpl. split; [reflexivity|]. split.
    + unfold with_contexts. simpl. rewrite insert_insert_eq. reflexivity.
    + intros [c'|] Hne; simpl; [|reflexivity].
      rewrite lookup_insert_ne by congruence. reflexivity.
  - intros [= <-]. eexists. split; [reflexivity|]. simpl.
    split; [reflexivity|]. split; [reflexivity|].
    intros [c'|] Hne; [reflexivity|congruence].
Qed.

Lemma rwkv_get_last_error_reads_and_clears_witness :
  ∃ st1,
    rwkv_get_last_error (Some 1%positive) sample_store = Some (256, st1)
    ∧ error_slot (Some 1%positive) st1 = Some RWKV_ERROR_NONE
    ∧ rwkv_get_last_error (Some 1%positive) st1 = Some (RWKV_ERROR_NONE, st1)
    ∧ ∀ other, other ≠ Some 1%positive →
               error_slot other st1 = error_slot other sample_store.
Proof.
  apply (rwkv_get_last_error_reads_and_clears (Some 1%positive) sample_store).
  reflexivity.
Defined.

(** ** Releasing a null handle *)

(** C10: [rwkv_free] of a null handle returns at once: the store it
    leaves is the store it found, with every context, model and arena
    still live and both process-wide variables as they were. *)
Theorem rwkv_free_null (st : state) : rwkv_free None st = Some st.
Proof. reflexivity. Qed.

(** ** Counting references *)

Lemma refs_insert_fresh (cs : gmap ptr rwkv_context) c x mp :
  cs !! c = None →
  refs (<[c := x]> cs) mp =
    if decide (model x = Some mp) then S (refs cs mp) else refs cs mp.
Proof.
  intros Hc. unfold refs. rewrite map_filter_insert. simpl.
  case_decide.
  - apply map_size_insert_None. apply map_lookup_filter_None. by left.
  - by rewrite delete_id.
Qed.

Lemma refs_delete (cs : gmap ptr rwkv_context) c x mp :
  cs !! c = Some x →
  refs cs mp =
    if decide (model x = Some mp) then S (refs (delete c cs) mp)
    else refs (delete c cs) mp.
Proof.
  intros Hc. rewrite <- (refs_insert_fresh (delete c cs) c x mp).
  - by rewrite insert_delete_eq, insert_id.
  - apply lookup_delete_eq.
Qed.

Lemma refs_update (cs : gmap ptr rwkv_context) c x x' mp :
  cs !! c = Some x → model x' = model x →
  refs (<[c := x']> cs) mp = refs cs mp.
Proof.
  intros Hc Hm. rewrite <- (insert_delete_eq cs).
  rewrite refs_insert_fresh by apply lookup_delete_eq.
  rewrite (refs_delete cs c x mp Hc), Hm. reflexivity.
Qed.

Lemma refs_positive (cs : gmap ptr rwkv_context) c x mp :
  cs !! c = Some x → model x = Some mp → (1 ≤ refs cs mp)%nat.
Proof.
  intros Hc Hm. rewrite (refs_delete cs c x mp Hc).
  rewrite decide_True by done. lia.
Qed.

(** ** What each call does to the store *)

Lemma fresh_context_free (st : state) :
  contexts st !! fresh (dom (contexts st)) = None.
Proof. apply not_elem_of_dom, is_fresh. Qed.

Lemma fresh_model_free (st : state) :
  models st !! fresh (dom (models st)) = None.
Proof. apply not_elem_of_dom, is_fresh. Qed.

Ltac step_store :=
  repeat (progress (rewrite ?lookup_insert_eq; simpl)).

Ltac tidy_store :=
  simpl; rewrite ?insert_insert_eq, ?delete_insert_eq.

Lemma init_effect E1 E2 env path n st h st' :
  rwkv_init_from_file E1 E2 env path n st = Some (h, st') →
  (h = None ∧ contexts st' = contexts st ∧ models st' = models st)
  ∨ (∃ mp m, h = None ∧ contexts st' = contexts st ∧
       models st !! mp = None ∧ models st' = <[mp := m]> (models st) ∧
       reference_count m = 1 ∧ ¬ clean_environment env path)
  ∨ (∃ c x mp m, h = Some c ∧ contexts st !! c = None ∧
       contexts st' = <[c := x]> (contexts st) ∧ model x = Some mp ∧
       models st !! mp = None ∧ models st' = <[mp := m]> (models st) ∧
       reference_count m = 1).
Proof.
  unfold rwkv_init_from_file, new_context, new_model.
  destruct (alloc_context env); simpl; [|intros ?; simplify_eq; left; done].
  destruct (alloc_model env); simpl.
  2:{ unfold update_context. step_store. discriminate. }
  pose proof (fresh_context_free st) as Hc.
  pose proof (fresh_model_free st) as Hm.
  set (c := fresh (dom (contexts st))) in *.
  set (mp := fresh (dom (models st))) in *.
  unfold update_context, update_model, rwkv_load_model_from_file,
    rwkv_measure_and_build_serial_context. step_store.
  destruct (fs env path) as [e|lm] eqn:Hfs; step_store.
  - intros ?; simplify_eq. right; left. exists mp. eexists. tidy_store.
    rewrite delete_id by done. repeat split; try done.
    intros [Hclean _]. by apply (Hclean e).
  - destruct (build env) as [e|] eqn:Hbuild; step_store.
    + intros ?; simplify_eq. right; left. exists mp. eexists. tidy_store.
      rewrite delete_id by done. repeat split; try done.
      intros [_ Hclean]. by apply (Hclean e).
    + intros ?; simplify_eq. right; right. exists c. eexists. exists mp.
      eexists. tidy_store. repeat split; try done.
Qed.

Lemma clone_effect E1 E2 env ctx n st h st' :
  rwkv_clone_context E1 E2 env ctx n st = Some (h, st') →
  (h = None ∧ contexts st' = contexts st ∧ models st' = models st)
  ∨ (∃ c0 src mp m,
       ctx = Some c0 ∧ contexts st !! c0 = Some src ∧ model src = Some mp ∧
       models st !! mp = Some m ∧
       models st' =
         <[mp := set_reference_count (reference_count m + 1) m]> (models st) ∧
       ((h = None ∧ contexts st' = contexts st ∧ build env ≠ Built)
        ∨ (∃ c x, h = Some c ∧ contexts st !! c = None ∧
             contexts st' = <[c := x]> (contexts st) ∧ model x = Some mp ∧
             print_errors x = print_errors src ∧
             last_used_sequence_length x = 0))).
Proof.
  unfold rwkv_clone_context, new_context.
  destruct (alloc_context env); simpl; [|intros ?; simplify_eq; left; done].
  pose proof (fresh_context_free st) as Hc.
  set (c := fresh (dom (contexts st))) in *.
  destruct ctx as [c0|]; simpl; [|discriminate].
  destruct (decide (c = c0)) as [<-|Hne].
  { unfold update_context. step_store. discriminate. }
  rewrite lookup_insert_ne by done.
  destruct (contexts st !! c0) as [src|] eqn:Hsrc; simpl; [|discriminate].
  unfold update_context, update_model,
    rwkv_measure_and_build_serial_context. step_store.
  destruct (model src) as [mp|] eqn:Hmp; simpl; [|discriminate].
  destruct (models st !! mp) as [m|] eqn:Hm; step_store; [|discriminate].
  destruct (build env) as [e|]; step_store.
  - intros ?; simplify_eq. right. exists c0, src, mp, m. tidy_store.
    rewrite delete_id by done. repeat split; try done. by left.
  - unfold deref_context. simpl. rewrite !lookup_insert_ne by done.
    rewrite Hsrc. step_store.
    intros ?; simplify_eq. right. exists c0, src, mp, m. tidy_store.
    repeat split; try done. right. exists c. eexists.
    repeat split; try done.
Qed.

Lemma free_effect c st st' :
  rwkv_free (Some c) st = Some st' →
  ∃ x mp m,
    contexts st !! c = Some x ∧ model x = Some mp ∧
    models st !! mp = Some m ∧
    contexts st' = delete c (contexts st) ∧
    models st' =
      if reference_count m - 1 =? 0 then delete mp (models st)
      else <[mp := set_reference_count (reference_count m - 1) m]> (models st).
Proof.
  unfold rwkv_free.
  destruct (contexts st !! c) as [x|] eqn:Hx; simpl; [|discriminate].
  destruct (model x) as [mp|] eqn:Hmp; simpl; [|discriminate].
  destruct (models st !! mp) as [m|] eqn:Hm; simpl; [|discriminate].
  intros ?; simplify_eq. exists x, mp, m. repeat split; try done.
  - destruct (reference_count m - 1 =? 0);
      destruct (0 <? last_used_sequence_length x);
      destruct (ggml_ctx (serial_graph x));
      destruct (ggml_ctx (sequential_graph x));
      destruct (model_ggml_ctx m); reflexivity.
  - destruct (reference_count m - 1 =? 0);
      destruct (0 <? last_used_sequence_length x);
      destruct (ggml_ctx (serial_graph x));
      destruct (ggml_ctx (sequential_graph x));
      destruct (model_ggml_ctx m); tidy_store; reflexivity.
Qed.

(** ** The store invariant *)

Lemma refs_dead cs ms mp :
  heap_ok cs ms → ms !! mp = None → refs cs mp = 0%nat.
Proof.
  intros [Hlive _] Hmp. unfold refs. apply map_size_empty_iff.
  apply map_empty_filter. intros c x Hc Hx. simpl in Hx.
  destruct (Hlive c x Hc) as (mp' & m' & Hx' & Hm'). congruence.
Qed.

Lemma heap_ok_empty : heap_ok ∅ ∅.
Proof.
  split.
  - intros c x Hc. by rewrite lookup_empty in Hc.
  - intros mp m Hm. by rewrite lookup_empty in Hm.
Qed.

Lemma heap_ok_new_model cs ms mp m :
  heap_ok cs ms → ms !! mp = None → 0 ≤ reference_count m →
  heap_ok cs (<[mp := m]> ms).
Proof.
  intros Hok Hmp Hm. pose proof (refs_dead cs ms mp Hok Hmp) as Hz.
  destruct Hok as [Hlive Hcount]. split.
  - intros c x Hc. destruct (Hlive c x Hc) as (mp' & m' & Hx & Hm').
    exists mp', m'. split; [done|].
    rewrite lookup_insert_ne; [done|congruence].
  - intros mp' m' Hm'. destruct (decide (mp = mp')) as [<-|Hne].
    + rewrite lookup_insert_eq in Hm'. simplify_eq. lia.
    + rewrite lookup_insert_ne in Hm' by done. by apply Hcount.
Qed.

Lemma heap_ok_new_context cs ms c x mp m :
  heap_ok cs ms → cs !! c = None → model x = Some mp → ms !! mp = Some m →
  Z.of_nat (refs cs mp) + 1 ≤ reference_count m →
  heap_ok (<[c := x]> cs) ms.
Proof.
  intros [Hlive Hcount] Hc Hx Hm Hroom. split.
  - intros c' x' Hc'. destruct (decide (c = c')) as [<-|Hne].
    + rewrite lookup_insert_eq in Hc'. simplify_eq. eauto.
    + rewrite lookup_insert_ne in Hc' by done. eauto.
  - intros mp' m' Hm'. rewrite refs_insert_fresh by done.
    case_decide as Heq.
    + assert (mp' = mp) as -> by congruence. simplify_eq. lia.
    + by apply Hcount.
Qed.

Lemma heap_ok_raise_count cs ms mp m m' :
  heap_ok cs ms → ms !! mp = Some m →
  reference_count m ≤ reference_count m' →
  heap_ok cs (<[mp := m']> ms).
Proof.
  intros [Hlive Hcount] Hm Hle. split.
  - intros c x Hc. destruct (Hlive c x Hc) as (mp1 & m1 & Hx & Hm1).
    destruct (decide (mp = mp1)) as [<-|Hne].
    + exists mp, m'. by rewrite lookup_insert_eq.
    + exists mp1, m1. by rewrite lookup_insert_ne.
  - intros mp1 m1 Hm1. destruct (decide (mp = mp1)) as [<-|Hne].
    + rewrite lookup_insert_eq in Hm1. simplify_eq.
      specialize (Hcount mp m Hm). lia.
    + rewrite lookup_insert_ne in Hm1 by done. by apply Hcount.
Qed.

Lemma heap_ok_update_context cs ms c x x' :
  heap_ok cs ms → cs !! c = Some x → model x' = model x →
  heap_ok (<[c := x']> cs) ms.
Proof.
  intros [Hlive Hcount] Hc Hx. split.
  - intros c1 x1 Hc1. destruct (decide (c = c1)) as [<-|Hne].
    + rewrite lookup_insert_eq in Hc1. simplify_eq.
      destruct (Hlive c x Hc) as (mp & m & Hmx & Hm).
      exists mp, m. split; congruence.
    + rewrite lookup_insert_ne in Hc1 by done. eauto.
  - intros mp m Hm. rewrite (refs_update cs c x x' mp Hc Hx). by apply Hcount.
Qed.

(** Two live contexts on one model: its count is at least two. *)
Lemma heap_ok_shared cs ms c c' x x' mp m :
  heap_ok cs ms → c ≠ c' → cs !! c = Some x → cs !! c' = Some x' →
  model x = Some mp → model x' = Some mp → ms !! mp = Some m →
  2 ≤ reference_count m.
Proof.
  intros [_ Hcount] Hne Hc Hc' Hx Hx' Hm.
  specialize (Hcount mp m Hm).
  rewrite (refs_delete cs c x mp Hc), decide_True in Hcount by done.
  assert (delete c cs !! c' = Some x') as Hd by by rewrite lookup_delete_ne.
  pose proof (refs_positive _ _ _ _ Hd Hx'). lia.
Qed.

Lemma heap_ok_free cs ms c x mp m :
  heap_ok cs ms → cs !! c = Some x → model x = Some mp → ms !! mp = Some m →
  heap_ok (delete c cs)
    (if reference_count m - 1 =? 0 then delete mp ms
     else <[mp := set_reference_count (reference_count m - 1) m]> ms).
Proof.
  intros Hok Hc Hx Hm. pose proof Hok as [Hlive Hcount]. split.
  - intros c1 x1 Hc1. apply lookup_delete_Some in Hc1 as [Hne Hc1].
    destruct (Hlive c1 x1 Hc1) as (mp1 & m1 & Hx1 & Hm1).
    destruct (decide (mp = mp1)) as [<-|Hmne].
    + assert (m1 = m) as -> by congruence.
      assert (c ≠ c1) as Hne' by congruence.
      pose proof (heap_ok_shared cs ms c c1 x x1 mp m Hok Hne' Hc Hc1 Hx Hx1 Hm).
      destruct (Z.eqb_spec (reference_count m - 1) 0); [lia|].
      eexists _, _. split; [done|]. apply lookup_insert_eq.
    + exists mp1, m1. split; [done|].
      destruct (reference_count m - 1 =? 0).
      * by rewrite lookup_delete_ne.
      * by rewrite lookup_insert_ne.
  - intros mp1 m1 Hm1.
    pose proof (refs_delete cs c x mp1 Hc) as Hr.
    destruct (decide (mp = mp1)) as [<-|Hmne].
    + rewrite decide_True in Hr by done.
      destruct (reference_count m - 1 =? 0).
      * by rewrite lookup_delete_eq in Hm1.
      * rewrite lookup_insert_eq in Hm1. simplify_eq. simpl.
        specialize (Hcount mp m Hm). lia.
    + rewrite decide_False in Hr by congruence. rewrite <- Hr.
      apply Hcount.
      destruct (reference_count m - 1 =? 0).
      * by rewrite lookup_delete_ne in Hm1.
      * by rewrite lookup_insert_ne in Hm1.
Qed.

Section Lifecycle.

Variables RWKV_ERROR_CTX RWKV_ERROR_ALLOC : rwkv_error_flags.

Abbreviation step := (api_step RWKV_ERROR_CTX RWKV_ERROR_ALLOC).
Abbreviation run := (run_calls RWKV_ERROR_CTX RWKV_ERROR_ALLOC).

Lemma api_step_store_ok call st st' :
  store_ok st → step call st = Some st' → store_ok st'.
Proof.
  unfold store_ok. intros Hok Hstep.
  destruct call as [env path n|env ctx n|ctx|ctx|ctx b]; simpl in Hstep.
  - destruct (rwkv_init_from_file _ _ env path n st) as [[h st1]|] eqn:Hinit;
      simplify_eq/=.
    apply init_effect in Hinit
      as [(_ & -> & ->)|[(mp & m & _ & -> & Hmp & -> & Hrc & _)
                        |(c & x & mp & m & _ & Hc & -> & Hx & Hmp & -> & Hrc)]].
    + done.
    + apply heap_ok_new_model; [done|done|lia].
    + apply (heap_ok_new_context _ _ c x mp m); try done.
      * apply heap_ok_new_model; [done|done|lia].
      * apply lookup_insert_eq.
      * rewrite (refs_dead _ _ mp Hok Hmp). lia.
  - destruct (rwkv_clone_context _ _ env ctx n st) as [[h st1]|] eqn:Hclone;
      simplify_eq/=.
    apply clone_effect in Hclone
      as [(_ & -> & ->)|(c0 & src & mp & m & _ & Hc0 & Hsrc & Hm & -> & Hcs)].
    + done.
    + assert (heap_ok (contexts st)
                (<[mp := set_reference_count (reference_count m + 1) m]>
                   (models st))) as Hok1.
      { apply (heap_ok_raise_count _ _ mp m); [done|done|simpl; lia]. }
      destruct Hcs as [(_ & -> & _)|(c & x & _ & Hc & -> & Hx & _)]; [done|].
      eapply (heap_ok_new_context _ _ c x mp); try done.
      * apply lookup_insert_eq.
      * simpl. destruct Hok as [_ Hcount]. specialize (Hcount mp m Hm). lia.
  - destruct ctx as [c|]; [|by simplify_eq/=].
    apply free_effect in Hstep as (x & mp & m & Hc & Hx & Hm & -> & ->).
    by apply (heap_ok_free _ _ c x mp m).
  - destruct ctx as [c|]; simpl in Hstep; [|by simplify_eq/=].
    destruct (contexts st !! c) as [x|] eqn:Hc; simplify_eq/=.
    by apply (heap_ok_update_context _ _ c x).
  - destruct ctx as [c|]; simpl in Hstep; [|by simplify_eq/=].
    destruct (contexts st !! c) as [x|] eqn:Hc; simplify_eq/=.
    by apply (heap_ok_update_context _ _ c x).
Qed.

Lemma run_calls_store_ok calls st st' :
  store_ok st → run calls st = Some st' → store_ok st'.
Proof.
  revert st. induction calls as [|call rest IH]; intros st Hok Hrun.
  - by simplify_eq/=.
  - simpl in Hrun.
    destruct (step call st) as [st1|] eqn:Hstep; simplify_eq/=.
    eauto using api_step_store_ok.
Qed.

Lemma empty_store_ok st : empty_store st → store_ok st.
Proof.
  intros [Hc Hm]. unfold store_ok. rewrite Hc, Hm. apply heap_ok_empty.
Qed.

(** A call other than the release of [c] leaves [c] live, pointing to
    the same live model, whose shape it does not change. *)
Lemma api_step_keeps call st st' c x mp m :
  store_ok st → step call st = Some st' →
  call ≠ CallFree (Some c) →
  contexts st !! c = Some x → model x = Some mp → models st !! mp = Some m →
  ∃ x' m', contexts st' !! c = Some x' ∧ model x' = Some mp ∧
           models st' !! mp = Some m' ∧ shape m' = shape m.
Proof.
  intros Hok Hstep Hcall Hc Hx Hm.
  destruct call as [env path n|env ctx n|ctx|ctx|ctx b]; simpl in Hstep.
  - destruct (rwkv_init_from_file _ _ env path n st) as [[h st1]|] eqn:Hinit;
      simplify_eq/=.
    apply init_effect in Hinit
      as [(_ & Hcs & Hms)|[(mp1 & m1 & _ & Hcs & Hmp & Hms & _ & _)
                        |(c1 & x1 & mp1 & m1 & _ & Hc1 & Hcs & _ & Hmp & Hms & _)]];
      rewrite Hcs, Hms.
    + by exists x, m.
    + exists x, m. rewrite lookup_insert_ne by congruence. done.
    + exists x, m. rewrite !lookup_insert_ne by congruence. done.
  - destruct (rwkv_clone_context _ _ env ctx n st) as [[h st1]|] eqn:Hclone;
      simplify_eq/=.
    apply clone_effect in Hclone
      as [(_ & Hcs & Hms)|(c0 & src & mp1 & m1 & _ & Hc0 & Hsrc & Hm1 & Hms & Hcs)].
    + rewrite Hcs, Hms. by exists x, m.
    + assert (∃ m', models st' !! mp = Some m' ∧ shape m' = shape m)
        as (m' & Hm' & Hshape).
      { rewrite Hms. destruct (decide (mp1 = mp)) as [->|Hne].
        - rewrite lookup_insert_eq. assert (m1 = m) as -> by congruence.
          by eexists.
        - rewrite lookup_insert_ne by done. by exists m. }
      destruct Hcs as [(_ & Hcs & _)|(c1 & x1 & _ & Hc1 & Hcs & _)]; rewrite Hcs.
      * by exists x, m'.
      * exists x, m'. rewrite lookup_insert_ne by congruence. done.
  - destruct ctx as [c1|]; [|simplify_eq/=; by exists x, m].
    assert (c1 ≠ c) as Hne by congruence.
    apply free_effect in Hstep as (x1 & mp1 & m1 & Hc1 & Hx1 & Hm1 & Hcs & Hms).
    rewrite Hcs, Hms. rewrite lookup_delete_ne by done.
    destruct (decide (mp1 = mp)) as [->|Hmne].
    + assert (m1 = m) as -> by congruence.
      pose proof (heap_ok_shared _ _ c1 c x1 x mp m Hok Hne Hc1 Hc Hx1 Hx Hm).
      destruct (Z.eqb_spec (reference_count m - 1) 0); [lia|].
      eexists x, _. rewrite lookup_insert_eq. done.
    + exists x, m. destruct (reference_count m1 - 1 =? 0).
      * by rewrite lookup_delete_ne.
      * by rewrite lookup_insert_ne.
  - destruct ctx as [c1|]; simpl in Hstep; [|simplify_eq/=; by exists x, m].
    destruct (contexts st !! c1) as [x1|] eqn:Hc1; simplify_eq/=.
    destruct (decide (c1 = c)) as [->|Hne].
    + rewrite lookup_insert_eq. assert (x1 = x) as -> by congruence.
      by eexists _, m.
    + rewrite lookup_insert_ne by done. by exists x, m.
  - destruct ctx as [c1|]; simpl in Hstep; [|simplify_eq/=; by exists x, m].
    destruct (contexts st !! c1) as [x1|] eqn:Hc1; simplify_eq/=.
    destruct (decide (c1 = c)) as [->|Hne].
    + rewrite lookup_insert_eq. assert (x1 = x) as -> by congruence.
      by eexists _, m.
    + rewrite lookup_insert_ne by done. by exists x, m.
Qed.

Lemma run_calls_keeps calls st st' c x mp m :
  store_ok st → run calls st = Some st' →
  CallFree (Some c) ∉ calls →
  contexts st !! c = Some x → model x = Some mp → models st !! mp = Some m →
  ∃ x' m', contexts st' !! c = Some x' ∧ model x' = Some mp ∧
           models st' !! mp = Some m' ∧ shape m' = shape m.
Proof.
  revert st x m. induction calls as [|call rest IH];
    intros st x m Hok Hrun Hnot Hc Hx Hm.
  - simplify_eq/=. by exists x, m.
  - simpl in Hrun.
    destruct (step call st) as [st1|] eqn:Hstep; simplify_eq/=.
    apply not_elem_of_cons in Hnot as [Hcall Hrest].
    destruct (api_step_keeps call st st1 c x mp m)
      as (x1 & m1 & Hc1 & Hx1 & Hm1 & Hshape); try done.
    destruct (IH st1 x1 m1) as (x2 & m2 & ? & ? & ? & Hshape2);
      eauto using api_step_store_ok.
    exists x2, m2. repeat split; try done. congruence.
Qed.

End Lifecycle.

(** ** Counts on runs without failed constructions *)

Lemma tight_new cs ms c x mp m :
  counts_tight cs ms → cs !! c = None → model x = Some mp →
  reference_count m = 1 →
  counts_tight (<[c := x]> cs) (<[mp := m]> ms).
Proof.
  intros Ht Hc Hx Hrc mp' m' Hm'. rewrite refs_insert_fresh by done.
  destruct (decide (mp = mp')) as [<-|Hne].
  - rewrite lookup_insert_eq in Hm'. rewrite decide_True by done.
    assert (m' = m) as -> by congruence. lia.
  - rewrite lookup_insert_ne in Hm' by done.
    rewrite decide_False by congruence. by apply Ht.
Qed.

Lemma tight_clone cs ms c x mp m :
  counts_tight cs ms → cs !! c = None → model x = Some mp →
  ms !! mp = Some m →
  counts_tight (<[c := x]> cs)
    (<[mp := set_reference_count (reference_count m + 1) m]> ms).
Proof.
  intros Ht Hc Hx Hm mp' m' Hm'. rewrite refs_insert_fresh by done.
  destruct (decide (mp = mp')) as [<-|Hne].
  - rewrite lookup_insert_eq in Hm'. rewrite decide_True by done.
    specialize (Ht mp m Hm).
    assert (m' = set_reference_count (reference_count m + 1) m) as ->
      by congruence.
    simpl. lia.
  - rewrite lookup_insert_ne in Hm' by done.
    rewrite decide_False by congruence. by apply Ht.
Qed.

Lemma tight_free cs ms c x mp m :
  counts_tight cs ms → cs !! c = Some x → model x = Some mp →
  ms !! mp = Some m →
  counts_tight (delete c cs)
    (if reference_count m - 1 =? 0 then delete mp ms
     else <[mp := set_reference_count (reference_count m - 1) m]> ms).
Proof.
  intros Ht Hc Hx Hm mp' m' Hm'.
  pose proof (refs_delete cs c x mp' Hc) as Hr.
  destruct (decide (mp = mp')) as [<-|Hne].
  - rewrite decide_True in Hr by done. specialize (Ht mp m Hm).
    destruct (Z.eqb_spec (reference_count m - 1) 0) as [Hz|Hnz].
    + by rewrite lookup_delete_eq in Hm'.
    + rewrite lookup_insert_eq in Hm'.
      assert (m' = set_reference_count (reference_count m - 1) m) as ->
        by congruence.
      simpl. lia.
  - rewrite decide_False in Hr by congruence. rewrite <- Hr. apply Ht.
    destruct (reference_count m - 1 =? 0).
    + by rewrite lookup_delete_ne in Hm'.
    + by rewrite lookup_insert_ne in Hm'.
Qed.

Lemma tight_update_context cs ms c x x' :
  counts_tight cs ms → cs !! c = Some x → model x' = model x →
  counts_tight (<[c := x']> cs) ms.
Proof.
  intros Ht Hc Hx mp m Hm. rewrite (refs_update cs c x x' mp Hc Hx).
  by apply Ht.
Qed.

Section CleanRuns.

Variables RWKV_ERROR_CTX RWKV_ERROR_ALLOC : rwkv_error_flags.

Abbreviation step := (api_step RWKV_ERROR_CTX RWKV_ERROR_ALLOC).
Abbreviation run := (run_calls RWKV_ERROR_CTX RWKV_ERROR_ALLOC).

Lemma api_step_tight call st st' :
  counts_tight (contexts st) (models st) → clean_call call →
  step call st = Some st' →
  counts_tight (contexts st') (models st').
Proof.
  intros Ht Hclean Hstep.
  destruct call as [env path n|env ctx n|ctx|ctx|ctx b]; simpl in *.
  - destruct (rwkv_init_from_file _ _ env path n st) as [[h st1]|] eqn:Hinit;
      simplify_eq/=.
    apply init_effect in Hinit
      as [(_ & -> & ->)|[(mp & m & _ & _ & _ & _ & _ & Hbad)
                        |(c & x & mp & m & _ & Hc & -> & Hx & Hmp & -> & Hrc)]].
    + done.
    + done.
    + by apply tight_new.
  - destruct (rwkv_clone_context _ _ env ctx n st) as [[h st1]|] eqn:Hclone;
      simplify_eq/=.
    apply clone_effect in Hclone
      as [(_ & -> & ->)|(c0 & src & mp & m & _ & Hc0 & Hsrc & Hm & -> & Hcs)].
    + done.
    + destruct Hcs as [(_ & _ & Hbad)|(c & x & _ & Hc & -> & Hx & _)]; [done|].
      by apply tight_clone.
  - destruct ctx as [c|]; [|by simplify_eq/=].
    apply free_effect in Hstep as (x & mp & m & Hc & Hx & Hm & -> & ->).
    by apply (tight_free _ _ c x mp m).
  - destruct ctx as [c|]; simpl in Hstep; [|by simplify_eq/=].
    destruct (contexts st !! c) as [x|] eqn:Hc; simplify_eq/=.
    by apply (tight_update_context _ _ c x).
  - destruct ctx as [c|]; simpl in Hstep; [|by simplify_eq/=].
    destruct (contexts st !! c) as [x|] eqn:Hc; simplify_eq/=.
    by apply (tight_update_context _ _ c x).
Qed.

Lemma run_calls_tight calls st st' :
  counts_tight (contexts st) (models st) → Forall clean_call calls →
  run calls st = Some st' →
  counts_tight (contexts st') (models st').
Proof.
  revert st. induction calls as [|call rest IH]; intros st Ht Hclean Hrun.
  - by simplify_eq/=.
  - simpl in Hrun. apply Forall_cons in Hclean as [Hcall Hrest].
    destruct (step call st) as [st1|] eqn:Hstep; simplify_eq/=.
    eauto using api_step_tight.
Qed.

(** X12: as long as no construction fails after raising the count, the count
    of every live model is the number of live contexts referencing it,
    and it is positive: a model is live exactly as long as some context
    references it. *)
Lemma reference_count_exact_on_clean_runs calls boot st mp m :
  empty_store boot → Forall clean_call calls →
  run calls boot = Some st →
  models st !! mp = Some m →
  reference_count m = Z.of_nat (refs (contexts st) mp)
  ∧ 1 ≤ reference_count m.
Proof.
  intros Hboot Hclean Hrun Hm.
  assert (store_ok st) as [_ Hle].
  { eapply run_calls_store_ok; [|done]. by apply empty_store_ok. }
  assert (counts_tight (contexts st) (models st)) as Ht.
  { eapply run_calls_tight; [|done|done].
    destruct Hboot as [-> ->]. intros ? ? H. by rewrite lookup_empty in H. }
  specialize (Hle mp m Hm). specialize (Ht mp m Hm). lia.
Qed.

(** X13: on any run, a model that a live context references is live and its
    count is at least one: it has not been destroyed. *)
Lemma referenced_model_is_live calls boot st c x :
  empty_store boot → run calls boot = Some st →
  contexts st !! c = Some x →
  ∃ mp m, model x = Some mp ∧ models st !! mp = Some m
          ∧ 1 ≤ reference_count m.
Proof.
  intros Hboot Hrun Hc.
  assert (store_ok st) as [Hlive Hle].
  { eapply run_calls_store_ok; [|done]. by apply empty_store_ok. }
  destruct (Hlive c x Hc) as (mp & m & Hx & Hm). exists mp, m.
  repeat split; try done. specialize (Hle mp m Hm).
  pose proof (refs_positive _ _ _ _ Hc Hx). lia.
Qed.

End CleanRuns.

(** ** The lengths over the lifetime of a model *)

Lemma shape_state_len m m' :
  shape m' = shape m → state_len_of m' = state_len_of m.
Proof.
  unfold shape, state_len_of. intros [= Hv He Hl Ha Hh].
  by rewrite Ha, He, Hl, Hh.
Qed.

Lemma shape_n_vocab m m' :
  shape m' = shape m → n_vocab (header m') = n_vocab (header m).
Proof. unfold shape. by intros [= Hv _ _ _ _]. Qed.

(** C9: take a store reached from an empty one by API calls, and a
    context live in it whose model has members within their C types.
    [rwkv_get_logits_len] returns exactly the header's vocabulary size,
    and after any further calls that do not free this context both
    [rwkv_get_logits_len] and [rwkv_get_state_len] still return what they
    returned before, on this context and on every context that shares its
    model. *)
Theorem lengths_constant_over_model_lifetime
    (RWKV_ERROR_CTX RWKV_ERROR_ALLOC : rwkv_error_flags)
    (before after : list api_call) (boot st st' : state)
    (c : ptr) (m : rwkv_model) :
  empty_store boot →
  run_calls RWKV_ERROR_CTX RWKV_ERROR_ALLOC before boot = Some st →
  deref_model (Some c) st = Some m →
  well_typed m →
  CallFree (Some c) ∉ after →
  run_calls RWKV_ERROR_CTX RWKV_ERROR_ALLOC after st = Some st' →
  rwkv_get_logits_len (Some c) st = Some (n_vocab (header m))
  ∧ rwkv_get_state_len (Some c) st = Some (state_len_of m)
  ∧ rwkv_get_logits_len (Some c) st' = rwkv_get_logits_len (Some c) st
  ∧ rwkv_get_state_len (Some c) st' = rwkv_get_state_len (Some c) st
  ∧ (∀ c2,
       model <$> contexts st' !! c2 = model <$> contexts st !! c →
       rwkv_get_logits_len (Some c2) st' = rwkv_get_logits_len (Some c) st
       ∧ rwkv_get_state_len (Some c2) st' = rwkv_get_state_len (Some c) st).
Proof.
  intros Hboot Hbefore Hm Hwt Hnot Hafter.
  assert (store_ok st) as Hok.
  { eapply run_calls_store_ok; [|done]. by apply empty_store_ok. }
  unfold rwkv_get_logits_len, rwkv_get_state_len. rewrite Hm. simpl.
  unfold deref_model, deref_context in Hm. simpl in Hm.
  destruct (contexts st !! c) as [x|] eqn:Hc; simpl in Hm; [|done].
  destruct (model x) as [mp|] eqn:Hx; simpl in Hm; [|done].
  destruct (run_calls_keeps RWKV_ERROR_CTX RWKV_ERROR_ALLOC
              after st st' c x mp m)
    as (x' & m' & Hc' & Hx' & Hm' & Hshape); try done.
  assert (∀ c2 x2, contexts st' !! c2 = Some x2 → model x2 = Some mp →
            deref_model (Some c2) st' = Some m') as Hshared.
  { intros c2 x2 Hc2 Hx2. unfold deref_model, deref_context. simpl.
    rewrite Hc2. simpl. rewrite Hx2. simpl. exact Hm'. }
  rewrite (Hshared c x' Hc' Hx'). simpl.
  rewrite (shape_state_len _ _ Hshape), (shape_n_vocab _ _ Hshape).
  assert (to_size_t (n_vocab (header m)) = n_vocab (header m)) as Hv.
  { apply to_size_t_small. destruct Hwt as (Hv & _).
    unfold SIZE_MAX, SIZE_WIDTH, UINT32_MAX in *. lia. }
  rewrite Hv. do 4 (split; [reflexivity|]).
  intros c2 Hc2. simpl in Hc2.
  destruct (contexts st' !! c2) as [x2|] eqn:Hx2; simpl in Hc2; [|done].
  assert (model x2 = Some mp) as Hmp by congruence.
  rewrite (Hshared c2 x2 Hx2 Hmp). simpl.
  by rewrite (shape_n_vocab _ _ Hshape), (shape_state_len _ _ Hshape), Hv.
Qed.

(** The sample store is the one a successful initialisation builds. *)
Lemma init_in_boot_store :
  rwkv_init_from_file 1536 1 good_env "rwkv.bin" 4 boot_store
  = Some (Some 1%positive, loaded_store).
Proof. vm_compute. reflexivity. Qed.

Lemma lengths_constant_over_model_lifetime_witness :
  ∃ st',
    run_calls 1536 1 sample_calls loaded_store = Some st'
    ∧ rwkv_get_logits_len (Some 1%positive) st' = Some 65536
    ∧ rwkv_get_state_len (Some 1%positive) st' = Some 8650752.
Proof.
  destruct (run_calls 1536 1 sample_calls loaded_store) as [st'|] eqn:Hrun;
    [|vm_compute in Hrun; discriminate].
  exists st'. split; [reflexivity|].
  destruct (lengths_constant_over_model_lifetime 1536 1
              [CallInit good_env "rwkv.bin" 4] sample_calls
              boot_store loaded_store st' 1%positive loaded_model_object)
    as (Hl & Hs & Hl' & Hs' & _).
  - split; reflexivity.
  - vm_compute. reflexivity.
  - reflexivity.
  - unfold well_typed. vm_compute. intuition discriminate.
  - unfold sample_calls. intros Hin.
    repeat (apply elem_of_cons in Hin as [Hin|Hin]; [discriminate|]).
    by apply elem_of_nil in Hin.
  - exact Hrun.
  - split; [exact (eq_trans Hl' Hl)|exact (eq_trans Hs' Hs)].
Defined.

(** ** The multi-step graph *)

Lemma ggml_free_releases g st : g ∉ arenas (ggml_free (Some g) st).
Proof.
  simpl. intros Hin. apply elem_of_difference in Hin as [_ Hne].
  apply Hne. by apply elem_of_singleton.
Qed.

Lemma ggml_free_keeps_released g h st :
  g ∉ arenas st → g ∉ arenas (ggml_free h st).
Proof.
  intros Hg. destruct h as [p|]; simpl; [|done].
  intros Hin. by apply elem_of_difference in Hin as [Hin _].
Qed.

(** [rwkv_free] releases the scratch arena of the single-step graph, and
    that of the multi-step graph when one has been built. *)
Lemma rwkv_free_releases_graphs c x st st' :
  contexts st !! c = Some x → rwkv_free (Some c) st = Some st' →
  (∀ g, ggml_ctx (serial_graph x) = Some g → g ∉ arenas st')
  ∧ (0 < last_used_sequence_length x →
     ∀ g, ggml_ctx (sequential_graph x) = Some g → g ∉ arenas st').
Proof.
  intros Hc. unfold rwkv_free. rewrite Hc. simpl.
  destruct (model x) as [mp|]; simpl; [|discriminate].
  destruct (models st !! mp) as [m|]; simpl; [|discriminate].
  intros ?; simplify_eq. split.
  - intros g Hg. rewrite Hg. unfold delete_context. simpl.
    destruct (0 <? last_used_sequence_length x);
      [apply ggml_free_keeps_released|]; apply ggml_free_releases.
  - intros Hpos g Hg. rewrite Hg.
    apply Z.ltb_lt in Hpos. rewrite Hpos. unfold delete_context. simpl.
    apply ggml_free_releases.
Qed.

(** ** Evaluation requests *)

Section EvaluatorProperties.

Context {number : Type}.
Variable RWKV_ERROR_ARGS : rwkv_error_flags.
Variable execute :
  rwkv_model → list Z → list number → list number * list number.

(** The buffer check reads the model of the context and nothing else. *)
Lemma buffers_fit_model ctx m (state_in state_out logits_out : list number)
    st :
  deref_model ctx st = Some m →
  buffers_fit ctx state_in state_out logits_out st
  = Some ((Z.of_nat (length state_in) =? state_len_of m)
          && (Z.of_nat (length state_out) =? state_len_of m)
          && (Z.of_nat (length logits_out) =? to_size_t (n_vocab (header m)))).
Proof.
  intros Hm. unfold buffers_fit, rwkv_get_state_len, rwkv_get_logits_len.
  rewrite Hm. reflexivity.
Qed.

Lemma buffers_fit_right ctx m (state_in state_out logits_out : list number)
    st :
  deref_model ctx st = Some m →
  Z.of_nat (length state_in) = state_len_of m →
  Z.of_nat (length state_out) = state_len_of m →
  Z.of_nat (length logits_out) = to_size_t (n_vocab (header m)) →
  buffers_fit ctx state_in state_out logits_out st = Some true.
Proof.
  intros Hm Hsi Hso Hlo. rewrite (buffers_fit_model _ _ _ _ _ _ Hm).
  apply Z.eqb_eq in Hsi, Hso, Hlo. by rewrite Hsi, Hso, Hlo.
Qed.

Lemma buffers_fit_wrong ctx m (state_in state_out logits_out : list number)
    st :
  deref_model ctx st = Some m →
  Z.of_nat (length state_in) ≠ state_len_of m
  ∨ Z.of_nat (length state_out) ≠ state_len_of m
  ∨ Z.of_nat (length logits_out) ≠ to_size_t (n_vocab (header m)) →
  buffers_fit ctx state_in state_out logits_out st = Some false.
Proof.
  intros Hm Hbad. rewrite (buffers_fit_model _ _ _ _ _ _ Hm). f_equal.
  destruct Hbad as [H|[H|H]]; apply Z.eqb_neq in H; rewrite H;
    rewrite ?andb_false_r; reflexivity.
Qed.

(** A store through the context pointer that leaves its [model] member
    alone, and any change of arenas or process-wide variables, leaves the
    model the context reaches as it was. *)
Lemma deref_model_update c x x' m st st' :
  contexts st !! c = Some x → deref_model (Some c) st = Some m →
  contexts st' !! c = Some x' → model x' = model x →
  models st' = models st →
  deref_model (Some c) st' = Some m.
Proof.
  unfold deref_model, deref_context. simpl.
  intros Hc Hm Hc' Hmod Hms. rewrite Hc in Hm. rewrite Hc'. simpl in *.
  by rewrite Hmod, Hms.
Qed.

(** Clearing a slot that is clear already changes nothing. *)
Lemma set_last_error_id x :
  last_error x = RWKV_ERROR_NONE → set_last_error RWKV_ERROR_NONE x = x.
Proof. destruct x. simpl. by intros ->. Qed.

Lemma with_contexts_id c x st :
  contexts st !! c = Some x → with_contexts (<[c := x]> (contexts st)) st = st.
Proof. intros Hc. destruct st. unfold with_contexts. simpl in *. by rewrite insert_id. Qed.

(** Choosing the multi-step graph is defined on a live context, fails
    only when the builder does, does nothing when the length is the
    last-built one, and leaves the context live with the model it had. *)
Lemma select_sequential_graph_live o c x sequence_len st :
  contexts st !! c = Some x →
  ∃ a st1 x1,
    select_sequential_graph o (Some c) sequence_len st = Some (a, st1)
    ∧ (a = RebuildFailed → ∃ e, o = BuildFailed e)
    ∧ (sequence_len = last_used_sequence_length x → a = Reused ∧ st1 = st)
    ∧ contexts st1 !! c = Some x1
    ∧ model x1 = model x
    ∧ last_error x1 = last_error x
    ∧ models st1 = models st.
Proof.
  intros Hc. unfold select_sequential_graph. simpl. rewrite Hc. simpl.
  destruct (Z.eqb_spec (last_used_sequence_length x) sequence_len) as [He|Hn].
  { exists Reused, st, x. repeat split; try done. }
  unfold rwkv_measure_and_build_sequential_context. rewrite Hc. simpl.
  destruct o as [e|]; simpl.
  { exists RebuildFailed, (raise_global e st), x.
    repeat split; try done; eauto; congruence. }
  set (x1 := set_sequential_graph (mk_graph (Some (fresh (arenas st)))) x).
  match goal with
  | |- context [update_context c _ ?s] => set (st2 := s)
  end.
  assert (contexts st2 = <[c := x1]> (contexts st) ∧ models st2 = models st)
    as [Hcs2 Hms2].
  { subst st2. destruct (0 <? last_used_sequence_length x);
      [destruct (ggml_ctx (sequential_graph x))|]; done. }
  unfold update_context. rewrite Hcs2, lookup_insert_eq. simpl.
  eexists Rebuilt, _, _. split; [reflexivity|].
  split; [discriminate|]. split; [congruence|].
  split; [simpl; apply lookup_insert_eq|]. done.
Qed.

(** *** Argument checking *)


(** *** Rebuilding the multi-step graph *)


End EvaluatorProperties.





(** ** Failed constructions *)

(** When [new rwkv_model()] returns null, the increment of the count
    goes through a null pointer. *)
Lemma init_null_model_undefined E1 E2 env path n st :
  alloc_context env = true → alloc_model env = false →
  rwkv_init_from_file E1 E2 env path n st = None.
Proof.
  intros Hc Hm. unfold rwkv_init_from_file, new_context, new_model.
  rewrite Hc, Hm. simpl. unfold update_context. step_store. reflexivity.
Qed.

(** When the file does not load, the context object is deleted but the
    model object allocated for it stays in the store, its count at one. *)
Lemma init_load_failure_retains_model E1 E2 env path n e st :
  alloc_context env = true → alloc_model env = true →
  fs env path = LoadFailed e →
  ∃ st' mp m,
    rwkv_init_from_file E1 E2 env path n st = Some (None, st')
    ∧ contexts st' = contexts st
    ∧ models st !! mp = None
    ∧ models st' = <[mp := m]> (models st)
    ∧ reference_count m = 1
    ∧ arenas st' = arenas st.
Proof.
  intros Hc Hm Hfs. unfold rwkv_init_from_file, new_context, new_model.
  rewrite Hc, Hm. simpl.
  pose proof (fresh_context_free st) as Hfresh.
  pose proof (fresh_model_free st) as Hfresh'.
  unfold update_context, update_model, rwkv_load_model_from_file.
  step_store. rewrite Hfs. step_store.
  eexists _, (fresh (dom (models st))), _. split; [reflexivity|]. tidy_store.
  rewrite delete_id by done. done.
Qed.

(** When the graph of a clone cannot be built, the clone is deleted but
    the count it raised stays raised. *)
Lemma clone_build_failure_keeps_count E1 E2 env c src mp m n e st :
  alloc_context env = true → build env = BuildFailed e →
  contexts st !! c = Some src → model src = Some mp →
  models st !! mp = Some m →
  ∃ st',
    rwkv_clone_context E1 E2 env (Some c) n st = Some (None, st')
    ∧ contexts st' = contexts st
    ∧ models st' =
        <[mp := set_reference_count (reference_count m + 1) m]> (models st)
    ∧ arenas st' = arenas st.
Proof.
  intros Ha Hb Hc Hsrc Hm. unfold rwkv_clone_context, new_context.
  rewrite Ha. simpl. unfold deref_context. simpl.
  pose proof (fresh_context_free st) as Hf.
  rewrite lookup_insert_ne by congruence. rewrite Hc. simpl.
  unfold update_context, update_model, rwkv_measure_and_build_serial_context.
  step_store. rewrite Hsrc. simpl. rewrite Hm. step_store.
  rewrite Hb. step_store.
  eexists. split; [reflexivity|]. tidy_store.
  rewrite delete_id by done. done.
Qed.

(** C3: constructions that fail.  On a file that does not load, or
    whose graph does not build, [rwkv_init_from_file] returns null and
    deletes the context, but the model object it allocated stays in the
    store with count one (and with its weight arena, once loaded).  With
    no memory for the model, it dereferences a null pointer instead of
    returning null.  With a graph that does not build,
    [rwkv_clone_context] returns null and deletes the clone, but leaves
    the count of the shared model at two with one context referencing
    it. *)
Theorem construction_failure_keeps_partial_allocations :
  (∃ st m,
     rwkv_init_from_file 1536 1 no_file_env "missing.bin" 4 boot_store
       = Some (None, st)
     ∧ contexts st = ∅
     ∧ models st = {[ 1%positive := m ]}
     ∧ reference_count m = 1)
  ∧ (∃ st,
       rwkv_init_from_file 1536 1 no_graph_env "rwkv.bin" 4 boot_store
         = Some (None, st)
       ∧ contexts st = ∅
       ∧ models st = {[ 1%positive := loaded_model_object ]}
       ∧ arenas st = {[ 1%positive ]})
  ∧ rwkv_init_from_file 1536 1 no_model_env "rwkv.bin" 4 boot_store = None
  ∧ (∃ st,
       rwkv_clone_context 1536 1 no_graph_env (Some 1%positive) 2 loaded_store
         = Some (None, st)
       ∧ contexts st = contexts loaded_store
       ∧ models st
         = {[ 1%positive := set_reference_count 2 loaded_model_object ]}
       ∧ refs (contexts st) 1%positive = 1%nat).
Proof.
  split; [eexists _, _; split; [vm_compute; reflexivity|];
          split; [reflexivity|]; split; reflexivity|].
  split; [eexists; split; [vm_compute; reflexivity|];
          split; [reflexivity|]; split; reflexivity|].
  split; [reflexivity|].
  eexists. split; [vm_compute; reflexivity|].
  split; [reflexivity|]. split; [reflexivity|]. vm_compute. reflexivity.
Qed.

(** C5: two runs on which the count of a model exceeds the number of
    live contexts referencing it.  After [rwkv_init_from_file] on a file
    that does not load, a model with count one is allocated and no context
    exists.  After a successful [rwkv_init_from_file] and a
    [rwkv_clone_context] whose graph does not build, one context is live
    and references the model, whose count is two; freeing that context
    leaves no context at all, yet the model and its weight arena are still
    allocated, with count one. *)
Theorem failed_construction_leaves_count_above_live_contexts :
  (∃ st m,
     run_calls 1536 1 [ CallInit no_file_env "missing.bin" 4 ] boot_store
       = Some st
     ∧ contexts st = ∅
     ∧ models st !! 1%positive = Some m
     ∧ reference_count m = 1
     ∧ refs (contexts st) 1%positive = 0%nat)
  ∧ (∃ st1 st2 m1 m2,
       run_calls 1536 1
         [ CallInit good_env "rwkv.bin" 4;
           CallClone no_graph_env (Some 1%positive) 2 ] boot_store = Some st1
       ∧ models st1 !! 1%positive = Some m1
       ∧ reference_count m1 = 2
       ∧ refs (contexts st1) 1%positive = 1%nat
       ∧ rwkv_free (Some 1%positive) st1 = Some st2
       ∧ contexts st2 = ∅
       ∧ models st2 !! 1%positive = Some m2
       ∧ reference_count m2 = 1
       ∧ model_ggml_ctx m2 = Some 1%positive
       ∧ arenas st2 = {[ 1%positive ]}).
Proof.
  split.
  - eexists _, _.
    split; [vm_compute; reflexivity|].
    split; [reflexivity|].
    split; [vm_compute; reflexivity|].
    split; [reflexivity|]. vm_compute. reflexivity.
  - eexists _, _, _, _.
    split; [vm_compute; reflexivity|].
    split; [vm_compute; reflexivity|].
    split; [reflexivity|].
    split; [vm_compute; reflexivity|].
    split; [vm_compute; reflexivity|].
    split; [reflexivity|].
    split; [vm_compute; reflexivity|].
    split; [reflexivity|]. split; reflexivity.
Qed.

(** * Further properties of the handle API *)

(** ** Successful constructions, exactly *)

(** The store a successful [rwkv_clone_context] leaves. *)
Lemma clone_success_store E1 E2 env c0 src mp m n st :
  alloc_context env = true → build env = Built →
  contexts st !! c0 = Some src → model src = Some mp →
  models st !! mp = Some m →
  rwkv_clone_context E1 E2 env (Some c0) n st =
    Some (Some (fresh (dom (contexts st))),
          mk_state
            (<[fresh (dom (contexts st)) :=
                 mk_context (Some mp) (mk_graph (Some (fresh (arenas st))))
                   (mk_graph None) 0 n RWKV_ERROR_NONE (print_errors src)]>
               (contexts st))
            (<[mp := set_reference_count (reference_count m + 1) m]>
               (models st))
            ({[fresh (arenas st)]} ∪ arenas st)
            (global_last_error st) (global_print_errors st)).
Proof.
  intros Ha Hb Hc Hsrc Hm. unfold rwkv_clone_context, new_context.
  rewrite Ha. simpl. unfold deref_context. simpl.
  pose proof (fresh_context_free st) as Hf.
  rewrite lookup_insert_ne by congruence. rewrite Hc. simpl.
  unfold update_context, update_model, rwkv_measure_and_build_serial_context.
  step_store. rewrite Hsrc. simpl. rewrite Hm. step_store.
  rewrite Hb. step_store.
  rewrite !lookup_insert_ne by congruence. rewrite Hc. step_store.
  unfold with_contexts. simpl. rewrite !insert_insert_eq. reflexivity.
Qed.

(** The store a successful [rwkv_init_from_file] leaves. *)
Lemma init_success_store E1 E2 env path lm n st :
  alloc_context env = true → alloc_model env = true →
  fs env path = Loaded lm → build env = Built →
  rwkv_init_from_file E1 E2 env path n st =
    Some (Some (fresh (dom (contexts st))),
          mk_state
            (<[fresh (dom (contexts st)) :=
                 mk_context (Some (fresh (dom (models st))))
                   (mk_graph
                      (Some (fresh ({[fresh (arenas st)]} ∪ arenas st))))
                   (mk_graph None) 0 n RWKV_ERROR_NONE false]>
               (contexts st))
            (<[fresh (dom (models st)) :=
                 mk_model (Some (fresh (arenas st))) (lm_header lm)
                   (lm_arch_version_major lm) (lm_head_size lm) 1]>
               (models st))
            ({[fresh ({[fresh (arenas st)]} ∪ arenas st)]}
               ∪ ({[fresh (arenas st)]} ∪ arenas st))
            RWKV_ERROR_NONE (global_print_errors st)).
Proof.
  intros Ha Hm Hfs Hb. unfold rwkv_init_from_file, new_context, new_model.
  rewrite Ha, Hm. simpl.
  unfold update_context, update_model, rwkv_load_model_from_file,
    rwkv_measure_and_build_serial_context.
  step_store. rewrite Hfs. step_store. rewrite Hb. step_store.
  unfold with_contexts, with_models. simpl.
  rewrite !insert_insert_eq. reflexivity.
Qed.

(** ** The diagnostics flag *)

(** X1: [rwkv_set_print_errors] followed by [rwkv_get_print_errors] on the
    same handle (null, or a live context) returns the value just set; the
    flag of every other handle, every error slot, every model and every
    arena are as before. *)
Theorem print_errors_set_then_get (ctx : handle) (b : bool) (st : state) :
  is_Some (rwkv_get_print_errors ctx st) →
  ∃ st',
    rwkv_set_print_errors ctx b st = Some st'
    ∧ rwkv_get_print_errors ctx st' = Some b
    ∧ (∀ other, other ≠ ctx →
         rwkv_get_print_errors other st' = rwkv_get_print_errors other st)
    ∧ (∀ h, error_slot h st' = error_slot h st)
    ∧ (∀ h, deref_model h st' = deref_model h st)
    ∧ arenas st' = arenas st.
Proof.
  destruct ctx as [c|]; simpl.
  - destruct (contexts st !! c) as [x|] eqn:Hx; simpl;
      [intros _|by intros [? ?]].
    eexists. split; [reflexivity|]. simpl. rewrite lookup_insert_eq. simpl.
    split; [reflexivity|]. split; [|split; [|split; [|reflexivity]]].
    + intros [c'|] Hne; simpl; [|reflexivity].
      rewrite lookup_insert_ne by congruence. reflexivity.
    + intros [c'|]; simpl; [|reflexivity].
      destruct (decide (c = c')) as [<-|Hne].
      * rewrite lookup_insert_eq, Hx. reflexivity.
      * rewrite lookup_insert_ne by done. reflexivity.
    + intros [c'|]; unfold deref_model, deref_context; simpl; [|reflexivity].
      destruct (decide (c = c')) as [<-|Hne].
      * rewrite lookup_insert_eq, Hx. reflexivity.
      * rewrite lookup_insert_ne by done. reflexivity.
  - intros _. eexists. split; [reflexivity|]. simpl.
    split; [reflexivity|]. split; [|split; [|split; reflexivity]].
    + intros [c'|] Hne; [reflexivity|congruence].
    + intros [c'|]; reflexivity.
Qed.

Lemma print_errors_set_then_get_witness :
  ∃ st',
    rwkv_set_print_errors (Some 1%positive) true loaded_store = Some st'
    ∧ rwkv_get_print_errors (Some 1%positive) st' = Some true
    ∧ rwkv_get_print_errors None st' = rwkv_get_print_errors None loaded_store.
Proof.
  destruct (print_errors_set_then_get (Some 1%positive) true loaded_store)
    as (st' & Hset & Hget & Hother & _).
  - by eexists.
  - exists st'. split; [exact Hset|]. split; [exact Hget|].
    by apply Hother.
Defined.

(** ** What a clone starts with *)

(** X2: a successful [rwkv_clone_context] returns an address no context had;
    the clone points to the model of the source, takes the thread count
    passed, copies the diagnostics flag of the source and starts with no
    multi-step graph length; the count of the model goes up by one; every
    other context and model, the source included, and the process-wide
    error slot are as before. *)
Theorem clone_success_fields E1 E2 env c0 src mp m n st :
  alloc_context env = true → build env = Built →
  contexts st !! c0 = Some src → model src = Some mp →
  models st !! mp = Some m →
  ∃ c x st',
    rwkv_clone_context E1 E2 env (Some c0) n st = Some (Some c, st')
    ∧ contexts st !! c = None
    ∧ contexts st' = <[c := x]> (contexts st)
    ∧ model x = Some mp
    ∧ n_threads x = n
    ∧ print_errors x = print_errors src
    ∧ last_used_sequence_length x = 0
    ∧ models st' =
        <[mp := set_reference_count (reference_count m + 1) m]> (models st)
    ∧ global_last_error st' = global_last_error st
    ∧ global_print_errors st' = global_print_errors st.
Proof.
  intros Ha Hb Hc Hsrc Hm.
  eexists _, _, _. split.
  { by apply (clone_success_store E1 E2 env c0 src mp m n st). }
  simpl. split; [apply fresh_context_free|]. done.
Qed.

Lemma clone_success_fields_witness :
  ∃ c x st',
    rwkv_clone_context 1536 1 good_env (Some 1%positive) 2 loaded_store
      = Some (Some c, st')
    ∧ contexts st' = <[c := x]> (contexts loaded_store)
    ∧ n_threads x = 2
    ∧ print_errors x = print_errors loaded_context.
Proof.
  destruct (clone_success_fields 1536 1 good_env 1%positive loaded_context
              1%positive loaded_model_object 2 loaded_store)
    as (c & x & st' & Hrun & _ & Hcs & _ & Hn & Hp & _);
    try reflexivity.
  exists c, x, st'. done.
Defined.

(** X3: right after a successful [rwkv_clone_context], every accessor returns
    on the clone what it returns on the source, and on the source what it
    returned before the clone was made. *)
Theorem clone_success_accessors E1 E2 env c0 n st c st' :
  rwkv_clone_context E1 E2 env (Some c0) n st = Some (Some c, st') →
  (rwkv_get_state_len (Some c) st' = rwkv_get_state_len (Some c0) st
   ∧ rwkv_get_logits_len (Some c) st' = rwkv_get_logits_len (Some c0) st
   ∧ rwkv_get_n_vocab (Some c) st' = rwkv_get_n_vocab (Some c0) st
   ∧ rwkv_get_n_embed (Some c) st' = rwkv_get_n_embed (Some c0) st
   ∧ rwkv_get_n_layer (Some c) st' = rwkv_get_n_layer (Some c0) st)
  ∧ (rwkv_get_state_len (Some c0) st' = rwkv_get_state_len (Some c0) st
     ∧ rwkv_get_logits_len (Some c0) st' = rwkv_get_logits_len (Some c0) st
     ∧ rwkv_get_n_vocab (Some c0) st' = rwkv_get_n_vocab (Some c0) st
     ∧ rwkv_get_n_embed (Some c0) st' = rwkv_get_n_embed (Some c0) st
     ∧ rwkv_get_n_layer (Some c0) st' = rwkv_get_n_layer (Some c0) st).
Proof.
  intros Hclone. apply clone_effect in Hclone
    as [(? & _)|(c1 & src & mp & m & Hc1 & Hsrc & Hmp & Hm & Hms & Hcs)];
    [done|].
  assert (c1 = c0) as -> by congruence.
  destruct Hcs as [(? & _)|(c' & x & Hc' & Hfresh & Hcs & Hx & _)]; [done|].
  assert (c' = c) as -> by congruence.
  assert (c ≠ c0) as Hne by congruence.
  assert (deref_model (Some c0) st = Some m) as Hold.
  { unfold deref_model, deref_context. simpl. rewrite Hsrc. simpl.
    rewrite Hmp. simpl. exact Hm. }
  assert (deref_model (Some c0) st'
          = Some (set_reference_count (reference_count m + 1) m)) as Hnew0.
  { unfold deref_model, deref_context. simpl. rewrite Hcs, Hms.
    rewrite lookup_insert_ne by done. rewrite Hsrc. simpl. rewrite Hmp. simpl.
    apply lookup_insert_eq. }
  assert (deref_model (Some c) st'
          = Some (set_reference_count (reference_count m + 1) m)) as Hnew.
  { unfold deref_model, deref_context. simpl. rewrite Hcs, Hms.
    rewrite lookup_insert_eq. simpl. rewrite Hx. simpl.
    apply lookup_insert_eq. }
  unfold rwkv_get_state_len, rwkv_get_logits_len, rwkv_get_n_vocab,
    rwkv_get_n_embed, rwkv_get_n_layer.
  rewrite Hold, Hnew0, Hnew. simpl. done.
Qed.

Lemma clone_success_accessors_witness :
  ∃ c st',
    rwkv_clone_context 1536 1 good_env (Some 1%positive) 2 loaded_store
      = Some (Some c, st')
    ∧ rwkv_get_state_len (Some c) st' = Some 8650752.
Proof.
  destruct (rwkv_clone_context 1536 1 good_env (Some 1%positive) 2
              loaded_store) as [[[c|] st']|] eqn:Hrun;
    try (vm_compute in Hrun; discriminate).
  exists c, st'. split; [reflexivity|].
  destruct (clone_success_accessors 1536 1 good_env 1%positive 2
              loaded_store c st' Hrun) as ((Hlen & _) & _).
  exact (eq_trans Hlen eq_refl).
Defined.

(** ** What [rwkv_free] touches *)

Lemma elem_of_arenas_ggml_free a h st :
  a ∈ arenas (ggml_free h st) ↔ a ∈ arenas st ∧ h ≠ Some a.
Proof.
  destruct h as [p|]; simpl.
  - rewrite elem_of_difference, elem_of_singleton. split.
    + intros [Hin Hne]. split; [done|]. congruence.
    + intros [Hin Hne]. split; [done|]. congruence.
  - split; [intros Hin; split; [done|discriminate]|by intros [Hin _]].
Qed.

(** X4: [rwkv_free] of a live context deletes this context and no other;
    lowers the count of its model by one, deleting the model exactly when
    the count was one; leaves every other model as it was; and releases
    the arena of the single-step graph, that of the multi-step graph when
    a multi-step length is recorded, and the weight arena when the model is
    deleted, and no other arena.  The process-wide variables are not
    written. *)
Theorem rwkv_free_frame c x mp m st :
  contexts st !! c = Some x → model x = Some mp →
  models st !! mp = Some m →
  ∃ st',
    rwkv_free (Some c) st = Some st'
    ∧ contexts st' = delete c (contexts st)
    ∧ (∀ mp', mp' ≠ mp → models st' !! mp' = models st !! mp')
    ∧ models st' !! mp =
        (if reference_count m =? 1 then None
         else Some (set_reference_count (reference_count m - 1) m))
    ∧ (∀ a, a ∈ arenas st' ↔
            a ∈ arenas st
            ∧ ggml_ctx (serial_graph x) ≠ Some a
            ∧ (0 < last_used_sequence_length x →
               ggml_ctx (sequential_graph x) ≠ Some a)
            ∧ (reference_count m = 1 → model_ggml_ctx m ≠ Some a))
    ∧ global_last_error st' = global_last_error st
    ∧ global_print_errors st' = global_print_errors st.
Proof.
  intros Hc Hx Hm. unfold rwkv_free. rewrite Hc. simpl. rewrite Hx. simpl.
  rewrite Hm. simpl. eexists. split; [reflexivity|].
  assert ((reference_count m - 1 =? 0) = (reference_count m =? 1)) as Heq.
  { destruct (Z.eqb_spec (reference_count m - 1) 0);
      destruct (Z.eqb_spec (reference_count m) 1); lia || done. }
  rewrite Heq.
  split; [|split; [|split; [|split; [|split]]]].
  - by destruct (reference_count m =? 1),
      (0 <? last_used_sequence_length x),
      (ggml_ctx (serial_graph x)), (ggml_ctx (sequential_graph x)),
      (model_ggml_ctx m).
  - intros mp' Hne.
    destruct (reference_count m =? 1),
      (0 <? last_used_sequence_length x),
      (ggml_ctx (serial_graph x)), (ggml_ctx (sequential_graph x)),
      (model_ggml_ctx m); simpl;
      rewrite ?lookup_delete_ne, ?lookup_insert_ne by done; done.
  - destruct (reference_count m =? 1),
      (0 <? last_used_sequence_length x),
      (ggml_ctx (serial_graph x)), (ggml_ctx (sequential_graph x)),
      (model_ggml_ctx m); simpl;
      rewrite ?lookup_delete_eq, ?lookup_insert_eq; done.
  - intros a. unfold delete_context. simpl.
    destruct (Z.eqb_spec (reference_count m) 1) as [Hone|Hmany];
      destruct (Z.ltb_spec 0 (last_used_sequence_length x)) as [Hpos|Hzero];
      rewrite ?elem_of_arenas_ggml_free; unfold delete_model; simpl;
      rewrite ?elem_of_arenas_ggml_free; simpl;
      intuition (try lia; try congruence).
  - by destruct (reference_count m =? 1),
      (0 <? last_used_sequence_length x),
      (ggml_ctx (serial_graph x)), (ggml_ctx (sequential_graph x)),
      (model_ggml_ctx m).
  - by destruct (reference_count m =? 1),
      (0 <? last_used_sequence_length x),
      (ggml_ctx (serial_graph x)), (ggml_ctx (sequential_graph x)),
      (model_ggml_ctx m).
Qed.

Lemma rwkv_free_frame_witness :
  ∃ st',
    rwkv_free (Some 1%positive) loaded_store = Some st'
    ∧ contexts st' = delete 1%positive (contexts loaded_store)
    ∧ models st' !! 1%positive = None.
Proof.
  destruct (rwkv_free_frame 1%positive loaded_context 1%positive
              loaded_model_object loaded_store)
    as (st' & Hrun & Hcs & _ & Hm & _); try reflexivity.
  exists st'. split; [exact Hrun|]. split; [exact Hcs|]. exact Hm.
Defined.

(** X5: once [rwkv_free] has released a context, the handle is dangling:
    releasing it again, reading a length through it, and reading or
    writing its error slot or diagnostics flag are all undefined. *)
Theorem handle_dangles_after_free c st st' :
  rwkv_free (Some c) st = Some st' →
  rwkv_free (Some c) st' = None
  ∧ rwkv_get_state_len (Some c) st' = None
  ∧ rwkv_get_logits_len (Some c) st' = None
  ∧ rwkv_get_n_vocab (Some c) st' = None
  ∧ rwkv_get_n_embed (Some c) st' = None
  ∧ rwkv_get_n_layer (Some c) st' = None
  ∧ rwkv_get_last_error (Some c) st' = None
  ∧ rwkv_get_print_errors (Some c) st' = None
  ∧ (∀ b, rwkv_set_print_errors (Some c) b st' = None).
Proof.
  intros Hfree.
  apply free_effect in Hfree as (x & mp & m & _ & _ & _ & Hcs & _).
  assert (contexts st' !! c = None) as Hgone.
  { rewrite Hcs. apply lookup_delete_eq. }
  unfold rwkv_get_state_len, rwkv_get_logits_len, rwkv_get_n_vocab,
    rwkv_get_n_embed, rwkv_get_n_layer, deref_model, deref_context.
  simpl. rewrite Hgone. done.
Qed.

Lemma handle_dangles_after_free_witness :
  ∃ st',
    rwkv_free (Some 1%positive) loaded_store = Some st'
    ∧ rwkv_free (Some 1%positive) st' = None.
Proof.
  destruct (rwkv_free (Some 1%positive) loaded_store) as [st'|] eqn:Hrun;
    [|vm_compute in Hrun; discriminate].
  exists st'. split; [reflexivity|].
  exact (proj1 (handle_dangles_after_free 1%positive loaded_store st' Hrun)).
Defined.

(** ** The 32-bit element counts *)

(** X6: for a model with members within their C types,
    [rwkv_get_logits_buffer_element_count] returns what
    [rwkv_get_logits_len] returns.  [rwkv_get_state_buffer_element_count]
    returns what [rwkv_get_state_len] returns when that fits in 32 bits;
    otherwise it returns the length reduced modulo 2^32, a smaller
    number. *)
Theorem element_counts_truncate (ctx : handle) (st : state) (m : rwkv_model) :
  deref_model ctx st = Some m →
  well_typed m →
  rwkv_get_logits_buffer_element_count ctx st = rwkv_get_logits_len ctx st
  ∧ (state_len_of m ≤ UINT32_MAX →
     rwkv_get_state_buffer_element_count ctx st = rwkv_get_state_len ctx st)
  ∧ (UINT32_MAX < state_len_of m →
     ∃ k, rwkv_get_state_buffer_element_count ctx st = Some k
          ∧ rwkv_get_state_len ctx st = Some (state_len_of m)
          ∧ k = state_len_of m mod 2 ^ 32
          ∧ k < state_len_of m).
Proof.
  intros Hm (Hv & _).
  unfold rwkv_get_logits_buffer_element_count,
    rwkv_get_state_buffer_element_count, rwkv_get_logits_len,
    rwkv_get_state_len.
  rewrite Hm. simpl.
  assert (0 ≤ state_len_of m) as Hpos.
  { rewrite state_len_of_mod. apply Z.mod_pos_bound. done. }
  split; [|split].
  - f_equal. rewrite to_size_t_small.
    + apply Z.mod_small. unfold UINT32_MAX in Hv. lia.
    + unfold SIZE_MAX, SIZE_WIDTH, UINT32_MAX in *. lia.
  - intros Hfit. f_equal. apply Z.mod_small. unfold UINT32_MAX in Hfit. lia.
  - intros Hbig. eexists. split; [reflexivity|]. split; [reflexivity|].
    split; [reflexivity|].
    pose proof (Z.mod_pos_bound (state_len_of m) (2 ^ 32)) as Hb.
    unfold UINT32_MAX in Hbig. lia.
Qed.

Lemma element_counts_truncate_witness :
  rwkv_get_state_len (Some 1%positive) wide_store = Some 4429185024
  ∧ rwkv_get_state_buffer_element_count (Some 1%positive) wide_store
    = Some 134217728.
Proof.
  destruct (element_counts_truncate (Some 1%positive) wide_store wide_model)
    as (_ & _ & Hbig).
  - reflexivity.
  - unfold well_typed. vm_compute. intuition discriminate.
  - destruct Hbig as (k & Hk & Hlen & -> & _); [vm_compute; reflexivity|].
    split; [exact Hlen|exact Hk].
Defined.

(** ** Constructors without memory for the context *)

(** Bits raised with [|=] are set afterwards. *)
Lemma land_lor_absorb (a b : Z) : Z.land (Z.lor a b) b = b.
Proof.
  apply Z.bits_inj'. intros k _. rewrite Z.land_spec, Z.lor_spec.
  destruct (Z.testbit a k), (Z.testbit b k); reflexivity.
Qed.

(** X7: when [new rwkv_context()] returns null, [rwkv_init_from_file] and
    [rwkv_clone_context] return null and leave every context, model and
    arena as they were, no count raised.  After [rwkv_init_from_file] the
    process-wide error slot holds exactly the context and allocation
    errors, whatever it held before; after [rwkv_clone_context] it has
    their bits set.  [rwkv_clone_context] returns before it reads its
    argument, whatever the handle passed. *)
Theorem constructors_without_context_memory E1 E2 env path ctx n st :
  alloc_context env = false →
  ∃ st1 st2,
    rwkv_init_from_file E1 E2 env path n st = Some (None, st1)
    ∧ rwkv_clone_context E1 E2 env ctx n st = Some (None, st2)
    ∧ contexts st1 = contexts st ∧ models st1 = models st
    ∧ arenas st1 = arenas st
    ∧ contexts st2 = contexts st ∧ models st2 = models st
    ∧ arenas st2 = arenas st
    ∧ global_last_error st1 = Z.lor E1 E2
    ∧ Z.land (global_last_error st2) (Z.lor E1 E2) = Z.lor E1 E2.
Proof.
  intros Ha. unfold rwkv_init_from_file, rwkv_clone_context, new_context.
  rewrite Ha. simpl. eexists _, _.
  split; [reflexivity|]. split; [reflexivity|]. simpl.
  repeat (split; [reflexivity|]).
  unfold raise_global; simpl. apply land_lor_absorb.
Qed.

Lemma constructors_without_context_memory_witness :
  ∃ st1,
    rwkv_init_from_file 1536 1 no_context_env "rwkv.bin" 4 loaded_store
      = Some (None, st1)
    ∧ contexts st1 = contexts loaded_store
    ∧ models st1 = models loaded_store.
Proof.
  destruct (constructors_without_context_memory 1536 1 no_context_env
              "rwkv.bin" None 4 loaded_store eq_refl)
    as (st1 & st2 & Hinit & _ & Hcs & Hms & _).
  exists st1. done.
Defined.

(** ** What an initialisation starts with *)

(** X8: when nothing fails, [rwkv_init_from_file] returns an address no
    context had, pointing to a model at an address no model had, with count
    one; the context has the thread count passed; the accessors report the
    header the loader read from the file; and the process-wide error slot
    holds no error. *)
Theorem init_success_fields E1 E2 env path lm n st :
  alloc_context env = true → alloc_model env = true →
  fs env path = Loaded lm → build env = Built →
  ∃ c x mp m st',
    rwkv_init_from_file E1 E2 env path n st = Some (Some c, st')
    ∧ contexts st !! c = None ∧ models st !! mp = None
    ∧ contexts st' = <[c := x]> (contexts st)
    ∧ models st' = <[mp := m]> (models st)
    ∧ model x = Some mp ∧ n_threads x = n
    ∧ reference_count m = 1
    ∧ rwkv_get_n_vocab (Some c) st'
      = Some (to_size_t (n_vocab (lm_header lm)))
    ∧ rwkv_get_n_embed (Some c) st'
      = Some (to_size_t (n_embed (lm_header lm)))
    ∧ rwkv_get_n_layer (Some c) st'
      = Some (to_size_t (n_layer (lm_header lm)))
    ∧ rwkv_get_logits_len (Some c) st'
      = Some (to_size_t (n_vocab (lm_header lm)))
    ∧ global_last_error st' = RWKV_ERROR_NONE.
Proof.
  intros Ha Hm Hfs Hb. eexists _, _, _, _, _. split.
  { by apply (init_success_store E1 E2 env path lm n st). }
  split; [apply fresh_context_free|]. split; [apply fresh_model_free|].
  unfold rwkv_get_n_vocab, rwkv_get_n_embed, rwkv_get_n_layer,
    rwkv_get_logits_len, deref_model, deref_context. simpl.
  rewrite lookup_insert_eq. simpl. rewrite lookup_insert_eq. simpl. done.
Qed.

Lemma init_success_fields_witness :
  ∃ c st',
    rwkv_init_from_file 1536 1 good_env "rwkv.bin" 4 boot_store
      = Some (Some c, st')
    ∧ rwkv_get_n_vocab (Some c) st' = Some 65536.
Proof.
  destruct (init_success_fields 1536 1 good_env "rwkv.bin" sample_loaded 4
              boot_store)
    as (c & x & mp & m & st' & Hrun & _ & _ & _ & _ & _ & _ & _ & Hv & _);
    try reflexivity.
  exists c, st'. split; [exact Hrun|exact Hv].
Defined.

(** ** What [rwkv_init_from_file] leaves alone *)

Lemma init_arenas_and_flag E1 E2 env path n st h st' :
  rwkv_init_from_file E1 E2 env path n st = Some (h, st') →
  (∀ a, a ∈ arenas st → a ∈ arenas st')
  ∧ global_print_errors st' = global_print_errors st.
Proof.
  unfold rwkv_init_from_file, new_context, new_model.
  destruct (alloc_context env); simpl; [|intros ?; by simplify_eq].
  destruct (alloc_model env); simpl.
  2:{ unfold update_context. step_store. discriminate. }
  unfold update_context, update_model, rwkv_load_model_from_file,
    rwkv_measure_and_build_serial_context. step_store.
  destruct (fs env path) as [e|lm]; step_store.
  - intros ?; by simplify_eq.
  - destruct (build env) as [e|]; step_store.
    + intros ?; simplify_eq. simpl. split; [|done].
      intros a Ha. apply elem_of_union. by right.
    + intros ?; simplify_eq. simpl. split; [|done].
      intros a Ha. apply elem_of_union. right. apply elem_of_union. by right.
Qed.

(** X9: whatever its outcome, [rwkv_init_from_file] leaves every context and
    every model that was live exactly as it was, releases no arena, and does
    not write the process-wide diagnostics flag; a handle it returns is an
    address no context had, now live. *)
Theorem init_leaves_existing_objects E1 E2 env path n st h st' :
  rwkv_init_from_file E1 E2 env path n st = Some (h, st') →
  (∀ c x, contexts st !! c = Some x → contexts st' !! c = Some x)
  ∧ (∀ mp m, models st !! mp = Some m → models st' !! mp = Some m)
  ∧ (∀ a, a ∈ arenas st → a ∈ arenas st')
  ∧ (∀ c, h = Some c → contexts st !! c = None ∧ is_Some (contexts st' !! c))
  ∧ global_print_errors st' = global_print_errors st.
Proof.
  intros Hinit.
  destruct (init_arenas_and_flag _ _ _ _ _ _ _ _ Hinit) as [Har Hflag].
  apply init_effect in Hinit
    as [(-> & Hcs & Hms)|[(mp & m & -> & Hcs & Hmp & Hms & _)
                        |(c & x & mp & m & -> & Hc & Hcs & _ & Hmp & Hms & _)]];
    rewrite Hcs, Hms.
  - repeat split; try done.
  - split; [done|]. split; [|repeat split; try done].
    intros mp' m' Hm'. rewrite lookup_insert_ne; [done|congruence].
  - split; [|split; [|split; [done|split; [|done]]]].
    + intros c' x' Hc'. rewrite lookup_insert_ne; [done|congruence].
    + intros mp' m' Hm'. rewrite lookup_insert_ne; [done|congruence].
    + intros c' [= <-]. split; [done|]. rewrite lookup_insert_eq. by eexists.
Qed.

Lemma init_leaves_existing_objects_witness :
  ∃ st',
    rwkv_init_from_file 1536 1 no_graph_env "rwkv.bin" 4 loaded_store
      = Some (None, st')
    ∧ contexts st' !! 1%positive = Some loaded_context
    ∧ models st' !! 1%positive = Some loaded_model_object.
Proof.
  destruct (rwkv_init_from_file 1536 1 no_graph_env "rwkv.bin" 4
              loaded_store) as [[[c|] st']|] eqn:Hrun;
    try (vm_compute in Hrun; discriminate).
  exists st'. split; [reflexivity|].
  destruct (init_leaves_existing_objects 1536 1 no_graph_env "rwkv.bin" 4
              loaded_store None st' Hrun) as (Hcs & Hms & _).
  split; [apply Hcs|apply Hms]; reflexivity.
Defined.

(** ** What one call can change in an object that survives it *)

Section Immutability.

Variables RWKV_ERROR_CTX RWKV_ERROR_ALLOC : rwkv_error_flags.

Abbreviation step := (api_step RWKV_ERROR_CTX RWKV_ERROR_ALLOC).

(** X10: of a model that is live before and after a call, only the count can
    have changed: the header, the derived architecture fields and the
    weight arena are the same, and the count is at most one higher after
    [rwkv_clone_context], at most one lower after [rwkv_free], and equal
    after every other call. *)
Theorem api_step_changes_only_the_count call st st' mp m m' :
  api_step RWKV_ERROR_CTX RWKV_ERROR_ALLOC call st = Some st' →
  models st !! mp = Some m → models st' !! mp = Some m' →
  header m' = header m
  ∧ arch_version_major m' = arch_version_major m
  ∧ head_size m' = head_size m
  ∧ model_ggml_ctx m' = model_ggml_ctx m
  ∧ match call with
    | CallClone _ _ _ =>
        reference_count m' = reference_count m
        ∨ reference_count m' = reference_count m + 1
    | CallFree _ =>
        reference_count m' = reference_count m
        ∨ reference_count m' = reference_count m - 1
    | _ => reference_count m' = reference_count m
    end.
Proof.
  intros Hstep Hm Hm'.
  destruct call as [env path n|env ctx n|ctx|ctx|ctx b]; simpl in Hstep.
  - destruct (rwkv_init_from_file _ _ env path n st) as [[h st1]|] eqn:Hinit;
      [|done].
    injection Hstep as <-. simpl in Hm'.
    apply init_effect in Hinit
      as [(_ & _ & Hms)|[(mp1 & m1 & _ & _ & Hmp & Hms & _)
                        |(c1 & x1 & mp1 & m1 & _ & _ & _ & _ & Hmp & Hms & _)]];
      rewrite Hms in Hm'.
    + assert (m' = m) as -> by congruence. done.
    + rewrite lookup_insert_ne in Hm' by congruence.
      assert (m' = m) as -> by congruence. done.
    + rewrite lookup_insert_ne in Hm' by congruence.
      assert (m' = m) as -> by congruence. done.
  - destruct (rwkv_clone_context _ _ env ctx n st) as [[h st1]|] eqn:Hclone;
      [|done].
    injection Hstep as <-. simpl in Hm'.
    apply clone_effect in Hclone
      as [(_ & _ & Hms)|(c0 & src & mp1 & m1 & _ & _ & _ & Hm1 & Hms & _)];
      rewrite Hms in Hm'.
    + assert (m' = m) as -> by congruence. repeat split; try done. by left.
    + destruct (decide (mp1 = mp)) as [->|Hne].
      * rewrite lookup_insert_eq in Hm'.
        assert (m1 = m) as -> by congruence.
        assert (m' = set_reference_count (reference_count m + 1) m) as ->
          by congruence.
        simpl. repeat split; try done. by right.
      * rewrite lookup_insert_ne in Hm' by done.
        assert (m' = m) as -> by congruence. repeat split; try done. by left.
  - destruct ctx as [c|].
    + apply free_effect in Hstep as (x & mp1 & m1 & _ & _ & Hm1 & _ & Hms).
      rewrite Hms in Hm'.
      destruct (decide (mp1 = mp)) as [->|Hne].
      * assert (m1 = m) as -> by congruence.
        destruct (reference_count m - 1 =? 0).
        { by rewrite lookup_delete_eq in Hm'. }
        rewrite lookup_insert_eq in Hm'.
        assert (m' = set_reference_count (reference_count m - 1) m) as ->
          by congruence.
        simpl. repeat split; try done. by right.
      * destruct (reference_count m1 - 1 =? 0).
        { rewrite lookup_delete_ne in Hm' by done.
          assert (m' = m) as -> by congruence.
          repeat split; try done. by left. }
        rewrite lookup_insert_ne in Hm' by done.
        assert (m' = m) as -> by congruence. repeat split; try done. by left.
    + simpl in Hstep. injection Hstep as <-.
      assert (m' = m) as -> by congruence. repeat split; try done. by left.
  - assert (models st' = models st) as Hms.
    { destruct ctx as [c|]; simpl in Hstep.
      - destruct (contexts st !! c) as [x|]; [|done].
        simpl in Hstep. by injection Hstep as <-.
      - by injection Hstep as <-. }
    rewrite Hms in Hm'. assert (m' = m) as -> by congruence. done.
  - assert (models st' = models st) as Hms.
    { destruct ctx as [c|]; simpl in Hstep.
      - destruct (contexts st !! c) as [x|]; [|done].
        simpl in Hstep. by injection Hstep as <-.
      - by injection Hstep as <-. }
    rewrite Hms in Hm'. assert (m' = m) as -> by congruence. done.
Qed.


End Immutability.

Lemma api_step_changes_only_the_count_witness :
  header (set_reference_count 2 loaded_model_object)
    = header loaded_model_object
  ∧ model_ggml_ctx (set_reference_count 2 loaded_model_object)
    = model_ggml_ctx loaded_model_object.
Proof.
  destruct (api_step_changes_only_the_count 1536 1
              (CallClone good_env (Some 1%positive) 2)
              loaded_store cloned_store 1%positive loaded_model_object
              (set_reference_count 2 loaded_model_object))
    as (Hh & _ & _ & Ha & _).
  - vm_compute. reflexivity.
  - reflexivity.
  - reflexivity.
  - split; [exact Hh|exact Ha].
Defined.


(** ** Runs *)

Lemma reference_count_exact_on_clean_runs_witness :
  reference_count (set_reference_count 2 loaded_model_object)
    = Z.of_nat (refs (contexts cloned_store) 1%positive)
  ∧ 1 ≤ reference_count (set_reference_count 2 loaded_model_object).
Proof.
  apply (reference_count_exact_on_clean_runs 1536 1 init_and_clone
           boot_store cloned_store 1%positive).
  - split; reflexivity.
  - unfold init_and_clone. repeat constructor; simpl; try done.
  - vm_compute. reflexivity.
  - reflexivity.
Defined.

Lemma referenced_model_is_live_witness :
  ∃ mp m, model cloned_context = Some mp
          ∧ models cloned_store !! mp = Some m
          ∧ 1 ≤ reference_count m.
Proof.
  apply (referenced_model_is_live 1536 1 init_and_clone boot_store
           cloned_store 2%positive).
  - split; reflexivity.
  - vm_compute. reflexivity.
  - reflexivity.
Defined.

Lemma refs_nonzero_exists (cs : gmap ptr rwkv_context) mp :
  refs cs mp ≠ 0%nat → ∃ c x, cs !! c = Some x ∧ model x = Some mp.
Proof.
  unfold refs. intros Hne. apply map_size_ne_0_lookup_1 in Hne as [c [x Hc]].
  apply map_lookup_filter_Some in Hc as [Hc Hx]. by exists c, x.
Qed.

(** X14: on a run from an empty store on which no load and no graph build
    fails, [rwkv_free] of a live context succeeds, and it deletes the model
    of the context exactly when no other live context points to that
    model. *)
Theorem free_deletes_model_iff_last_reference
    (RWKV_ERROR_CTX RWKV_ERROR_ALLOC : rwkv_error_flags)
    (calls : list api_call) (boot st : state) (c : ptr) (x : rwkv_context)
    (mp : ptr) :
  empty_store boot → Forall clean_call calls →
  run_calls RWKV_ERROR_CTX RWKV_ERROR_ALLOC calls boot = Some st →
  contexts st !! c = Some x → model x = Some mp →
  ∃ st',
    rwkv_free (Some c) st = Some st'
    ∧ (models st' !! mp = None ↔
       ∀ c' x', c' ≠ c → contexts st !! c' = Some x' → model x' ≠ Some mp).
Proof.
  intros Hboot Hclean Hrun Hc Hx.
  assert (store_ok st) as Hok.
  { eapply run_calls_store_ok; [|done]. by apply empty_store_ok. }
  assert (counts_tight (contexts st) (models st)) as Ht.
  { eapply run_calls_tight; [|done|done].
    destruct Hboot as [-> ->]. intros ? ? H. by rewrite lookup_empty in H. }
  destruct Hok as [Hlive Hle].
  destruct (Hlive c x Hc) as (mp' & m & Hx' & Hm).
  assert (mp' = mp) as -> by congruence.
  specialize (Hle mp m Hm). specialize (Ht mp m Hm).
  pose proof (refs_delete (contexts st) c x mp Hc) as Hr.
  rewrite decide_True in Hr by done.
  destruct (rwkv_free (Some c) st) as [st'|] eqn:Hfree.
  2:{ unfold rwkv_free in Hfree. rewrite Hc in Hfree. simpl in Hfree.
      rewrite Hx in Hfree. simpl in Hfree. rewrite Hm in Hfree. done. }
  exists st'. split; [done|].
  apply free_effect in Hfree as (x1 & mp1 & m1 & Hc1 & Hx1 & Hm1 & Hcs & Hms).
  assert (x1 = x) as -> by congruence.
  assert (mp1 = mp) as -> by congruence.
  assert (m1 = m) as -> by congruence.
  rewrite Hms. split.
  - intros Hgone c' x' Hne Hc' Hx2.
    destruct (Z.eqb_spec (reference_count m - 1) 0) as [Hz|Hnz];
      [|by rewrite lookup_insert_eq in Hgone].
    assert (delete c (contexts st) !! c' = Some x') as Hd
      by by rewrite lookup_delete_ne.
    pose proof (refs_positive _ _ _ _ Hd Hx2). lia.
  - intros Hlast.
    destruct (Z.eqb_spec (reference_count m - 1) 0) as [Hz|Hnz];
      [apply lookup_delete_eq|].
    exfalso.
    assert (refs (delete c (contexts st)) mp ≠ 0%nat) as Hrest by lia.
    apply refs_nonzero_exists in Hrest as (c' & x' & Hc' & Hx2).
    apply lookup_delete_Some in Hc' as [Hne Hc'].
    by apply (Hlast c' x').
Qed.

Lemma free_deletes_model_iff_last_reference_witness :
  ∃ st',
    rwkv_free (Some 2%positive) cloned_store = Some st'
    ∧ is_Some (models st' !! 1%positive).
Proof.
  destruct (free_deletes_model_iff_last_reference 1536 1 init_and_clone
              boot_store cloned_store 2%positive cloned_context 1%positive)
    as (st' & Hfree & Hiff).
  - split; reflexivity.
  - unfold init_and_clone. repeat constructor; simpl; try done.
  - vm_compute. reflexivity.
  - reflexivity.
  - reflexivity.
  - exists st'. split; [exact Hfree|].
    destruct (models st' !! 1%positive) as [m|] eqn:Hm; [by eexists|].
    exfalso. apply (proj1 Hiff Hm 1%positive loaded_context);
      [discriminate|reflexivity|reflexivity].
Defined.

(** ** Construction followed by release *)

Lemma release_fresh (a : ptr) (A : gset ptr) :
  a ∉ A → ({[a]} ∪ A) ∖ {[a]} = A.
Proof.
  intros Ha. apply set_eq. intros b.
  rewrite elem_of_difference, elem_of_union, !elem_of_singleton. split.
  - intros [[->|Hb] Hne]; done.
  - intros Hb. split; [by right|]. intros ->. done.
Qed.

Lemma release_two_fresh (a1 a2 : ptr) (A : gset ptr) :
  a1 ∉ A → a2 ∉ {[a1]} ∪ A →
  (({[a2]} ∪ ({[a1]} ∪ A)) ∖ {[a1]}) ∖ {[a2]} = A.
Proof.
  intros H1 H2. apply set_eq. intros b.
  rewrite !elem_of_difference, !elem_of_union, !elem_of_singleton. split.
  - intros [[[->|[->|Hb]] Hne1] Hne2]; done.
  - intros Hb. split; [split|].
    + right. by right.
    + intros ->. done.
    + intros ->. apply H2. apply elem_of_union. by right.
Qed.

Lemma set_reference_count_same (m : rwkv_model) :
  set_reference_count (reference_count m) m = m.
Proof. by destruct m. Qed.

(** X15: when nothing fails, [rwkv_init_from_file] followed by [rwkv_free] of
    the context it returned leaves every context, model and arena of the
    store as before the initialisation: nothing is left allocated.  Only
    the process-wide error slot differs, cleared by the initialisation. *)
Theorem init_then_free_restores E1 E2 env path lm n st :
  alloc_context env = true → alloc_model env = true →
  fs env path = Loaded lm → build env = Built →
  ∃ c st1,
    rwkv_init_from_file E1 E2 env path n st = Some (Some c, st1)
    ∧ rwkv_free (Some c) st1
      = Some (with_global_last_error RWKV_ERROR_NONE st).
Proof.
  intros Ha Hm Hfs Hb. eexists _, _. split.
  { by apply (init_success_store E1 E2 env path lm n st). }
  pose proof (fresh_context_free st) as Hc.
  pose proof (fresh_model_free st) as Hmp.
  unfold rwkv_free. simpl. rewrite lookup_insert_eq. simpl.
  rewrite lookup_insert_eq. simpl. f_equal.
  unfold delete_context, delete_model, with_models, with_contexts,
    with_global_last_error. simpl.
  rewrite delete_insert_eq, !delete_id by done.
  rewrite insert_insert_eq, delete_insert_eq, delete_id by done.
  rewrite release_two_fresh; [done|apply is_fresh..].
Qed.

Lemma init_then_free_restores_witness :
  ∃ c st1,
    rwkv_init_from_file 1536 1 good_env "rwkv.bin" 4 boot_store
      = Some (Some c, st1)
    ∧ rwkv_free (Some c) st1 = Some boot_store.
Proof.
  destruct (init_then_free_restores 1536 1 good_env "rwkv.bin" sample_loaded
              4 boot_store) as (c & st1 & Hinit & Hfree); try reflexivity.
  exists c, st1. split; [exact Hinit|exact Hfree].
Defined.

(** X16: when nothing fails, [rwkv_clone_context] on a live context whose
    model has a count other than zero, followed by [rwkv_free] of the
    clone, gives back the store exactly as it was before the clone. *)
Theorem clone_then_free_restores E1 E2 env c0 src mp m n st :
  alloc_context env = true → build env = Built →
  contexts st !! c0 = Some src → model src = Some mp →
  models st !! mp = Some m → reference_count m ≠ 0 →
  ∃ c st1,
    rwkv_clone_context E1 E2 env (Some c0) n st = Some (Some c, st1)
    ∧ rwkv_free (Some c) st1 = Some st.
Proof.
  intros Ha Hb Hc Hsrc Hm Hrc. eexists _, _. split.
  { by apply (clone_success_store E1 E2 env c0 src mp m n st). }
  pose proof (fresh_context_free st) as Hf.
  unfold rwkv_free. simpl. rewrite lookup_insert_eq. simpl.
  rewrite lookup_insert_eq. simpl.
  destruct (Z.eqb_spec (reference_count m + 1 - 1) 0) as [Hz|_]; [lia|].
  f_equal. unfold delete_context, with_models, with_contexts. simpl.
  rewrite delete_insert_eq, delete_id by done.
  rewrite insert_insert_eq.
  replace (reference_count m + 1 - 1) with (reference_count m) by lia.
  unfold set_reference_count at 1. simpl.
  change (mk_model (model_ggml_ctx m) (header m) (arch_version_major m)
            (head_size m) (reference_count m))
    with (set_reference_count (reference_count m) m).
  rewrite set_reference_count_same, insert_id by done.
  rewrite release_fresh by apply is_fresh. by destruct st.
Qed.

Lemma clone_then_free_restores_witness :
  ∃ c st1,
    rwkv_clone_context 1536 1 good_env (Some 1%positive) 2 loaded_store
      = Some (Some c, st1)
    ∧ rwkv_free (Some c) st1 = Some loaded_store.
Proof.
  apply (clone_then_free_restores 1536 1 good_env 1%positive loaded_context
           1%positive loaded_model_object 2 loaded_store);
    try reflexivity.
  vm_compute. discriminate.
Defined.

(** ** The system information string *)

Lemma append_cons (x : ascii) (a b : string) :
  String x a +:+ b = String x (a +:+ b).
Proof. reflexivity. Qed.

Lemma append_empty (b : string) : "" +:+ b = b.
Proof. reflexivity. Qed.

Lemma append_assoc_string (a b c : string) :
  (a +:+ b) +:+ c = a +:+ (b +:+ c).
Proof.
  induction a as [|x a IH]; [done|]. rewrite !append_cons. by f_equal.
Qed.

Lemma has_space_append (a b : string) :
  has_space (a +:+ b) = has_space a || has_space b.
Proof.
  induction a as [|x a IH]; [done|]. rewrite append_cons. simpl.
  by destruct (decide (x = " "%char)).
Qed.

Lemma pretty_N_char_no_space (x : N) : pretty_N_char x ≠ " "%char.
Proof. unfold pretty_N_char. by repeat case_match. Qed.

Lemma pretty_N_go_no_space (x : N) (s : string) :
  has_space (pretty_N_go x s) = has_space s.
Proof.
  revert s. induction (N.lt_wf_0 x) as [x _ IH]; intros s.
  assert (x = 0 ∨ 0 < x)%N as [->|Hpos] by lia.
  - by rewrite pretty_N_go_0.
  - rewrite pretty_N_go_step by done. rewrite IH by by apply N.div_lt.
    simpl. rewrite decide_False; [done|apply pretty_N_char_no_space].
Qed.

Lemma pretty_N_no_space (x : N) : has_space (pretty x) = false.
Proof.
  unfold pretty, pretty_N. case_decide; [done|].
  by rewrite pretty_N_go_no_space.
Qed.

Lemma to_string_no_space (z : Z) : has_space (to_string z) = false.
Proof.
  destruct z as [|p|p]; [done| |].
  - apply (pretty_N_no_space (Npos p)).
  - change (to_string (Z.neg p)) with ("-" +:+ pretty (Npos p)).
    rewrite has_space_append. by rewrite pretty_N_no_space.
Qed.

(** Two strings free of spaces, each followed by a space: the first space
    is where both end. *)
Lemma split_at_space (a a' r r' : string) :
  has_space a = false → has_space a' = false →
  a +:+ String " " r = a' +:+ String " " r' → a = a' ∧ r = r'.
Proof.
  revert a'. induction a as [|x a IH]; intros [|x' a'] Ha Ha' Heq;
    rewrite ?append_cons, ?append_empty in Heq; simpl in *.
  - by injection Heq as ->.
  - injection Heq as <- _. by rewrite decide_True in Ha'.
  - injection Heq as -> _. by rewrite decide_True in Ha.
  - injection Heq as -> Heq.
    destruct (decide (x' = " "%char)); [done|].
    destruct (IH a' Ha Ha' Heq) as [-> ->]. done.
Qed.

Lemma to_string_inj (a b : Z) : to_string a = to_string b → a = b.
Proof. unfold to_string. apply (inj pretty). Qed.

Lemma system_info_not_empty (f : cpu_features) : system_info f ≠ "".
Proof.
  unfold system_info. cbv zeta. rewrite append_empty.
  rewrite !append_assoc_string, !append_cons. discriminate.
Qed.

Example system_info_sample :
  system_info sample_features
  = "AVX=1 AVX2=1 AVX512=0 FMA=1 NEON=0 ARM_FMA=0 F16C=1 FP16_VA=0 WASM_SIMD=0 BLAS=0 SSE3=1 VSX=0".
Proof. vm_compute. reflexivity. Qed.

(** X17: the first call of [rwkv_get_system_info_string] assembles the string
    from the probes; every later call returns that same string and leaves
    it in place, whatever the probes would answer then.  (The emptiness
    test can serve as the "not yet computed" flag because the assembled
    string is never empty.) *)
Theorem system_info_computed_once (f : cpu_features) :
  rwkv_get_system_info_string f "" = (system_info f, system_info f)
  ∧ ∀ g, rwkv_get_system_info_string g (system_info f)
         = (system_info f, system_info f).
Proof.
  unfold rwkv_get_system_info_string. split.
  - by rewrite decide_True.
  - intros g. rewrite decide_False; [done|apply system_info_not_empty].
Qed.

Ltac strip_prefix H :=
  repeat (rewrite ?append_cons, ?append_empty in H; injection H as H).

(** X18: the system information string determines every probe answer: two
    machines get the same string only when all twelve probes answer the
    same. *)
Theorem system_info_inj (f g : cpu_features) :
  system_info f = system_info g → f = g.
Proof.
  destruct f as [a1 a2 a3 a4 a5 a6 a7 a8 a9 a10 a11 a12].
  destruct g as [b1 b2 b3 b4 b5 b6 b7 b8 b9 b10 b11 b12].
  unfold system_info. cbv zeta. simpl. rewrite !append_empty.
  rewrite !append_assoc_string. intros H.
  strip_prefix H.
  apply split_at_space in H as [H1 H]; [|apply to_string_no_space..].
  strip_prefix H.
  apply split_at_space in H as [H2 H]; [|apply to_string_no_space..].
  strip_prefix H.
  apply split_at_space in H as [H3 H]; [|apply to_string_no_space..].
  strip_prefix H.
  apply split_at_space in H as [H4 H]; [|apply to_string_no_space..].
  strip_prefix H.
  apply split_at_space in H as [H5 H]; [|apply to_string_no_space..].
  strip_prefix H.
  apply split_at_space in H as [H6 H]; [|apply to_string_no_space..].
  strip_prefix H.
  apply split_at_space in H as [H7 H]; [|apply to_string_no_space..].
  strip_prefix H.
  apply split_at_space in H as [H8 H]; [|apply to_string_no_space..].
  strip_prefix H.
  apply split_at_space in H as [H9 H]; [|apply to_string_no_space..].
  strip_prefix H.
  apply split_at_space in H as [H10 H]; [|apply to_string_no_space..].
  strip_prefix H.
  apply split_at_space in H as [H11 H]; [|apply to_string_no_space..].
  strip_prefix H.
  apply to_string_inj in H1, H2, H3, H4, H5, H6, H7, H8, H9, H10, H11, H.
  congruence.
Qed.

Lemma system_info_inj_witness :
  sample_features = mk_cpu_features 1 1 0 1 0 0 1 0 0 0 1 0.
Proof.
  apply (system_info_inj sample_features
           (mk_cpu_features 1 1 0 1 0 0 1 0 0 0 1 0)).
  reflexivity.
Defined.

(** ** Ownership of arenas *)

Lemma arenas_owned_empty (A : gset ptr) : arenas_owned ∅ ∅ A.
Proof.
  repeat split; intros; by rewrite lookup_empty in *.
Qed.

(** A model without an arena appears. *)
Lemma arenas_owned_new_bare_model cs ms A mp m :
  heap_ok cs ms → ms !! mp = None → model_ggml_ctx m = None →
  arenas_owned cs ms A → arenas_owned cs (<[mp := m]> ms) A.
Proof.
  intros [Hlive _] Hmp Hbare (A1 & A2 & A3 & A4 & A5 & A6).
  split; [done|]. split; [|split; [done|split; [|split]]].
  - intros mp1 m1 a Hm1 Ha. destruct (decide (mp = mp1)) as [<-|Hne].
    + rewrite lookup_insert_eq in Hm1. congruence.
    + rewrite lookup_insert_ne in Hm1 by done. eauto.
  - intros mp1 mp2 m1 m2 a Hm1 Hm2 Ha1 Ha2.
    destruct (decide (mp = mp1)) as [<-|Hne1].
    { rewrite lookup_insert_eq in Hm1. congruence. }
    destruct (decide (mp = mp2)) as [<-|Hne2].
    { rewrite lookup_insert_eq in Hm2. congruence. }
    rewrite lookup_insert_ne in Hm1, Hm2 by done. eauto.
  - intros c x mp1 m1 a Hc Hm1 Ha. destruct (decide (mp = mp1)) as [<-|Hne].
    + rewrite lookup_insert_eq in Hm1. congruence.
    + rewrite lookup_insert_ne in Hm1 by done. eauto.
  - intros c x mp1 m1 Hc Hx Hm1. destruct (decide (mp = mp1)) as [<-|Hne].
    + destruct (Hlive c x Hc) as (mp2 & m2 & Hx2 & Hm2). congruence.
    + rewrite lookup_insert_ne in Hm1 by done. eauto.
Qed.

(** A model with a fresh arena appears. *)
Lemma arenas_owned_new_model cs ms A mp m a :
  heap_ok cs ms → ms !! mp = None → model_ggml_ctx m = Some a → a ∉ A →
  arenas_owned cs ms A → arenas_owned cs (<[mp := m]> ms) ({[a]} ∪ A).
Proof.
  intros [Hlive _] Hmp Hm Hfresh (A1 & A2 & A3 & A4 & A5 & A6).
  split; [|split; [|split; [done|split; [|split]]]].
  - intros c x Hc. destruct (A1 c x Hc) as (Hl & a' & Ha' & Hin).
    split; [done|]. exists a'. split; [done|]. apply elem_of_union. by right.
  - intros mp1 m1 a1 Hm1 Ha1. apply elem_of_union.
    destruct (decide (mp = mp1)) as [<-|Hne].
    + rewrite lookup_insert_eq in Hm1. left. apply elem_of_singleton.
      congruence.
    + rewrite lookup_insert_ne in Hm1 by done. right. eauto.
  - intros mp1 mp2 m1 m2 a1 Hm1 Hm2 Ha1 Ha2.
    destruct (decide (mp = mp1)) as [<-|Hne1];
      destruct (decide (mp = mp2)) as [<-|Hne2]; [done| | |].
    + rewrite lookup_insert_eq in Hm1.
      rewrite lookup_insert_ne in Hm2 by done.
      assert (a1 = a) as -> by congruence. by destruct Hfresh; eauto.
    + rewrite lookup_insert_eq in Hm2.
      rewrite lookup_insert_ne in Hm1 by done.
      assert (a1 = a) as -> by congruence. by destruct Hfresh; eauto.
    + rewrite lookup_insert_ne in Hm1, Hm2 by done. eauto.
  - intros c x mp1 m1 a1 Hc Hm1 Ha1.
    destruct (decide (mp = mp1)) as [<-|Hne].
    + rewrite lookup_insert_eq in Hm1. intros Heq.
      assert (a1 = a) as -> by congruence.
      destruct (A1 c x Hc) as (_ & a2 & Ha2 & Hin).
      assert (a2 = a) as -> by congruence. done.
    + rewrite lookup_insert_ne in Hm1 by done. eauto.
  - intros c x mp1 m1 Hc Hx Hm1. destruct (decide (mp = mp1)) as [<-|Hne].
    + destruct (Hlive c x Hc) as (mp2 & m2 & Hx2 & Hm2). congruence.
    + rewrite lookup_insert_ne in Hm1 by done. eauto.
Qed.

(** A context with a fresh single-step arena appears. *)
Lemma arenas_owned_new_context cs ms A c x a mp m :
  cs !! c = None → ggml_ctx (serial_graph x) = Some a → a ∉ A →
  last_used_sequence_length x = 0 →
  model x = Some mp → ms !! mp = Some m → is_Some (model_ggml_ctx m) →
  arenas_owned cs ms A → arenas_owned (<[c := x]> cs) ms ({[a]} ∪ A).
Proof.
  intros Hc Ha Hfresh Hlast Hx Hm Hw (A1 & A2 & A3 & A4 & A5 & A6).
  split; [|split; [|split; [|split; [done|split]]]].
  - intros c1 x1 Hc1. destruct (decide (c = c1)) as [<-|Hne].
    + rewrite lookup_insert_eq in Hc1. assert (x1 = x) as -> by congruence.
      split; [done|]. exists a. split; [done|].
      apply elem_of_union. left. by apply elem_of_singleton.
    + rewrite lookup_insert_ne in Hc1 by done.
      destruct (A1 c1 x1 Hc1) as (Hl & a' & Ha' & Hin).
      split; [done|]. exists a'. split; [done|].
      apply elem_of_union. by right.
  - intros mp1 m1 a1 Hm1 Ha1. apply elem_of_union. right. eauto.
  - intros c1 c2 x1 x2 Hc1 Hc2 Heq.
    destruct (decide (c = c1)) as [<-|Hne1];
      destruct (decide (c = c2)) as [<-|Hne2]; [done| | |].
    + rewrite lookup_insert_eq in Hc1.
      rewrite lookup_insert_ne in Hc2 by done.
      assert (x1 = x) as -> by congruence.
      destruct (A1 c2 x2 Hc2) as (_ & a2 & Ha2 & Hin).
      assert (a2 = a) as -> by congruence. done.
    + rewrite lookup_insert_eq in Hc2.
      rewrite lookup_insert_ne in Hc1 by done.
      assert (x2 = x) as -> by congruence.
      destruct (A1 c1 x1 Hc1) as (_ & a1 & Ha1 & Hin).
      assert (a1 = a) as -> by congruence. done.
    + rewrite lookup_insert_ne in Hc1, Hc2 by done. eauto.
  - intros c1 x1 mp1 m1 a1 Hc1 Hm1 Ha1.
    destruct (decide (c = c1)) as [<-|Hne].
    + rewrite lookup_insert_eq in Hc1. assert (x1 = x) as -> by congruence.
      intros Hw1. assert (a1 = a) as -> by congruence.
      apply Hfresh. eauto.
    + rewrite lookup_insert_ne in Hc1 by done. eauto.
  - intros c1 x1 mp1 m1 Hc1 Hx1 Hm1.
    destruct (decide (c = c1)) as [<-|Hne].
    + rewrite lookup_insert_eq in Hc1. assert (x1 = x) as -> by congruence.
      assert (mp1 = mp) as -> by congruence.
      assert (m1 = m) as -> by congruence. done.
    + rewrite lookup_insert_ne in Hc1 by done. eauto.
Qed.

(** A model changes but keeps its arena. *)
Lemma arenas_owned_update_model cs ms A mp m m' :
  ms !! mp = Some m → model_ggml_ctx m' = model_ggml_ctx m →
  arenas_owned cs ms A → arenas_owned cs (<[mp := m']> ms) A.
Proof.
  intros Hm Hsame (A1 & A2 & A3 & A4 & A5 & A6).
  assert (∀ mp1 m1, <[mp := m']> ms !! mp1 = Some m1 →
            ∃ m0, ms !! mp1 = Some m0
                  ∧ model_ggml_ctx m1 = model_ggml_ctx m0) as Hback.
  { intros mp1 m1 Hm1. destruct (decide (mp = mp1)) as [<-|Hne].
    - rewrite lookup_insert_eq in Hm1. exists m. split; congruence.
    - rewrite lookup_insert_ne in Hm1 by done. by exists m1. }
  split; [done|]. split; [|split; [done|split; [|split]]].
  - intros mp1 m1 a Hm1 Ha.
    destruct (Hback mp1 m1 Hm1) as (m0 & Hm0 & Heq).
    apply (A2 mp1 m0); congruence.
  - intros mp1 mp2 m1 m2 a Hm1 Hm2 Ha1 Ha2.
    destruct (Hback mp1 m1 Hm1) as (n1 & Hn1 & Heq1).
    destruct (Hback mp2 m2 Hm2) as (n2 & Hn2 & Heq2).
    apply (A4 mp1 mp2 n1 n2 a); congruence.
  - intros c x mp1 m1 a Hc Hm1 Ha.
    destruct (Hback mp1 m1 Hm1) as (m0 & Hm0 & Heq).
    rewrite Heq. eauto.
  - intros c x mp1 m1 Hc Hx Hm1.
    destruct (Hback mp1 m1 Hm1) as (m0 & Hm0 & Heq).
    rewrite Heq. eauto.
Qed.

(** A context changes but keeps its model, its graphs and its multi-step
    length. *)
Lemma arenas_owned_update_context cs ms A c x x' :
  cs !! c = Some x → model x' = model x →
  serial_graph x' = serial_graph x →
  last_used_sequence_length x' = last_used_sequence_length x →
  arenas_owned cs ms A → arenas_owned (<[c := x']> cs) ms A.
Proof.
  intros Hc Hmodel Hgraph Hlast (A1 & A2 & A3 & A4 & A5 & A6).
  assert (∀ c1 x1, <[c := x']> cs !! c1 = Some x1 →
            ∃ x0, cs !! c1 = Some x0 ∧ model x1 = model x0
                  ∧ serial_graph x1 = serial_graph x0
                  ∧ last_used_sequence_length x1
                    = last_used_sequence_length x0) as Hback.
  { intros c1 x1 Hc1. destruct (decide (c = c1)) as [<-|Hne].
    - rewrite lookup_insert_eq in Hc1. exists x.
      assert (x1 = x') as -> by congruence. done.
    - rewrite lookup_insert_ne in Hc1 by done. by exists x1. }
  split; [|split; [done|split; [|split; [done|split]]]].
  - intros c1 x1 Hc1.
    destruct (Hback c1 x1 Hc1) as (x0 & Hc0 & _ & Hg & Hl).
    rewrite Hg, Hl. eauto.
  - intros c1 c2 x1 x2 Hc1 Hc2 Heq.
    destruct (Hback c1 x1 Hc1) as (y1 & Hy1 & _ & Hg1 & _).
    destruct (Hback c2 x2 Hc2) as (y2 & Hy2 & _ & Hg2 & _).
    apply (A3 c1 c2 y1 y2); congruence.
  - intros c1 x1 mp m a Hc1 Hm Ha.
    destruct (Hback c1 x1 Hc1) as (x0 & Hc0 & _ & Hg & _).
    apply (A5 c1 x0 mp m a); congruence.
  - intros c1 x1 mp m Hc1 Hx1 Hm.
    destruct (Hback c1 x1 Hc1) as (x0 & Hc0 & Hmo & _).
    apply (A6 c1 x0 mp m); congruence.
Qed.

(** A context goes, and its single-step arena with it. *)
Lemma arenas_owned_drop_context cs ms A A' c x :
  cs !! c = Some x →
  (∀ a, a ∈ A' ↔ a ∈ A ∧ ggml_ctx (serial_graph x) ≠ Some a) →
  arenas_owned cs ms A → arenas_owned (delete c cs) ms A'.
Proof.
  intros Hc HA' (A1 & A2 & A3 & A4 & A5 & A6).
  split; [|split; [|split; [|split; [done|split]]]].
  - intros c1 x1 Hc1. apply lookup_delete_Some in Hc1 as [Hne Hc1].
    destruct (A1 c1 x1 Hc1) as (Hl & a & Ha & Hin).
    split; [done|]. exists a. split; [done|]. apply HA'. split; [done|].
    intros Heq. apply Hne. apply (A3 c c1 x x1); congruence.
  - intros mp m a Hm Ha. apply HA'. split; [eauto|].
    intros Heq. by apply (A5 c x mp m a).
  - intros c1 c2 x1 x2 Hc1 Hc2 Heq.
    apply lookup_delete_Some in Hc1 as [_ Hc1].
    apply lookup_delete_Some in Hc2 as [_ Hc2]. eauto.
  - intros c1 x1 mp m a Hc1 Hm Ha.
    apply lookup_delete_Some in Hc1 as [_ Hc1]. eauto.
  - intros c1 x1 mp m Hc1 Hx1 Hm.
    apply lookup_delete_Some in Hc1 as [_ Hc1]. eauto.
Qed.

(** A model no context points to goes, and its weight arena with it. *)
Lemma arenas_owned_drop_model cs ms A A' mp m :
  ms !! mp = Some m →
  (∀ c x, cs !! c = Some x → model x ≠ Some mp) →
  (∀ a, a ∈ A' ↔ a ∈ A ∧ model_ggml_ctx m ≠ Some a) →
  arenas_owned cs ms A → arenas_owned cs (delete mp ms) A'.
Proof.
  intros Hm Hnone HA' (A1 & A2 & A3 & A4 & A5 & A6).
  split; [|split; [|split; [done|split; [|split]]]].
  - intros c x Hc. destruct (A1 c x Hc) as (Hl & a & Ha & Hin).
    split; [done|]. exists a. split; [done|]. apply HA'. split; [done|].
    by apply (A5 c x mp m a).
  - intros mp1 m1 a Hm1 Ha. apply lookup_delete_Some in Hm1 as [Hne Hm1].
    apply HA'. split; [eauto|].
    intros Heq. apply Hne. by apply (A4 mp mp1 m m1 a).
  - intros mp1 mp2 m1 m2 a Hm1 Hm2 Ha1 Ha2.
    apply lookup_delete_Some in Hm1 as [_ Hm1].
    apply lookup_delete_Some in Hm2 as [_ Hm2]. eauto.
  - intros c x mp1 m1 a Hc Hm1 Ha.
    apply lookup_delete_Some in Hm1 as [_ Hm1]. eauto.
  - intros c x mp1 m1 Hc Hx Hm1.
    apply lookup_delete_Some in Hm1 as [_ Hm1]. eauto.
Qed.

(** The arenas [rwkv_free] leaves live. *)
Lemma free_arenas c x mp m st st' :
  contexts st !! c = Some x → model x = Some mp →
  models st !! mp = Some m → rwkv_free (Some c) st = Some st' →
  ∀ a, a ∈ arenas st' ↔
       a ∈ arenas st
       ∧ ggml_ctx (serial_graph x) ≠ Some a
       ∧ (0 < last_used_sequence_length x →
          ggml_ctx (sequential_graph x) ≠ Some a)
       ∧ (reference_count m - 1 = 0 → model_ggml_ctx m ≠ Some a).
Proof.
  intros Hc Hx Hm. unfold rwkv_free. rewrite Hc. simpl. rewrite Hx. simpl.
  rewrite Hm. simpl. intros [= <-] a. unfold delete_context. simpl.
  destruct (Z.eqb_spec (reference_count m - 1) 0) as [Hone|Hmany];
    destruct (Z.ltb_spec 0 (last_used_sequence_length x)) as [Hpos|Hzero];
    rewrite ?elem_of_arenas_ggml_free; unfold delete_model; simpl;
    rewrite ?elem_of_arenas_ggml_free; simpl;
    intuition (try lia; try congruence).
Qed.

Section Ownership.

Variables RWKV_ERROR_CTX RWKV_ERROR_ALLOC : rwkv_error_flags.

Abbreviation step := (api_step RWKV_ERROR_CTX RWKV_ERROR_ALLOC).
Abbreviation run := (run_calls RWKV_ERROR_CTX RWKV_ERROR_ALLOC).

(** What [rwkv_init_from_file] can do to the store. *)
Lemma init_outcomes env path n st h st' :
  rwkv_init_from_file RWKV_ERROR_CTX RWKV_ERROR_ALLOC env path n st
    = Some (h, st') →
  (contexts st' = contexts st ∧ models st' = models st
   ∧ arenas st' = arenas st)
  ∨ (∃ mp m, contexts st' = contexts st ∧ models st !! mp = None
       ∧ models st' = <[mp := m]> (models st)
       ∧ model_ggml_ctx m = None ∧ arenas st' = arenas st)
  ∨ (∃ mp m a, contexts st' = contexts st ∧ models st !! mp = None
       ∧ models st' = <[mp := m]> (models st)
       ∧ model_ggml_ctx m = Some a ∧ (a ∉ arenas st)
       ∧ arenas st' = {[a]} ∪ arenas st)
  ∨ (∃ c x mp m a g, contexts st !! c = None
       ∧ contexts st' = <[c := x]> (contexts st)
       ∧ models st !! mp = None ∧ models st' = <[mp := m]> (models st)
       ∧ model x = Some mp ∧ last_used_sequence_length x = 0
       ∧ model_ggml_ctx m = Some a ∧ (a ∉ arenas st)
       ∧ ggml_ctx (serial_graph x) = Some g ∧ (g ∉ {[a]} ∪ arenas st)
       ∧ arenas st' = {[g]} ∪ ({[a]} ∪ arenas st)).
Proof.
  unfold rwkv_init_from_file, new_context, new_model.
  destruct (alloc_context env); simpl; [|intros ?; simplify_eq; by left].
  destruct (alloc_model env); simpl.
  2:{ unfold update_context. step_store. discriminate. }
  pose proof (fresh_context_free st) as Hc.
  pose proof (fresh_model_free st) as Hm.
  unfold update_context, update_model, rwkv_load_model_from_file,
    rwkv_measure_and_build_serial_context. step_store.
  destruct (fs env path) as [e|lm]; step_store.
  - intros ?; simplify_eq. right; left. eexists _, _. tidy_store.
    rewrite delete_id by done. done.
  - destruct (build env) as [e|]; step_store.
    + intros ?; simplify_eq. right; right; left. eexists _, _, _. tidy_store.
      rewrite delete_id by done. repeat split; try done. apply is_fresh.
    + intros ?; simplify_eq. right; right; right.
      eexists _, _, _, _, _, _. tidy_store.
      repeat split; try done; apply is_fresh.
Qed.

(** What [rwkv_clone_context] can do to the store. *)
Lemma clone_outcomes env ctx n st h st' :
  rwkv_clone_context RWKV_ERROR_CTX RWKV_ERROR_ALLOC env ctx n st
    = Some (h, st') →
  (contexts st' = contexts st ∧ models st' = models st
   ∧ arenas st' = arenas st)
  ∨ (∃ c0 src mp m,
       contexts st !! c0 = Some src ∧ model src = Some mp
       ∧ models st !! mp = Some m
       ∧ models st' =
           <[mp := set_reference_count (reference_count m + 1) m]>
             (models st)
       ∧ ((contexts st' = contexts st ∧ arenas st' = arenas st)
          ∨ (∃ c x g, contexts st !! c = None
               ∧ contexts st' = <[c := x]> (contexts st)
               ∧ model x = Some mp ∧ last_used_sequence_length x = 0
               ∧ ggml_ctx (serial_graph x) = Some g ∧ (g ∉ arenas st)
               ∧ arenas st' = {[g]} ∪ arenas st))).
Proof.
  unfold rwkv_clone_context, new_context.
  destruct (alloc_context env); simpl; [|intros ?; simplify_eq; by left].
  pose proof (fresh_context_free st) as Hc.
  set (c := fresh (dom (contexts st))) in *.
  destruct ctx as [c0|]; simpl; [|discriminate].
  destruct (decide (c = c0)) as [<-|Hne].
  { unfold update_context. step_store. discriminate. }
  rewrite lookup_insert_ne by done.
  destruct (contexts st !! c0) as [src|] eqn:Hsrc; simpl; [|discriminate].
  unfold update_context, update_model,
    rwkv_measure_and_build_serial_context. step_store.
  destruct (model src) as [mp|] eqn:Hmp; simpl; [|discriminate].
  destruct (models st !! mp) as [m|] eqn:Hm; step_store; [|discriminate].
  destruct (build env) as [e|]; step_store.
  - intros ?; simplify_eq. right. exists c0, src, mp, m. tidy_store.
    rewrite delete_id by done. repeat split; try done. by left.
  - unfold deref_context. simpl. rewrite !lookup_insert_ne by done.
    rewrite Hsrc. step_store.
    intros ?; simplify_eq. right. exists c0, src, mp, m. tidy_store.
    repeat split; try done. right. eexists c, _, _.
    repeat split; try done. apply is_fresh.
Qed.

Lemma api_step_arenas_owned call st st' :
  store_ok st → arenas_owned (contexts st) (models st) (arenas st) →
  step call st = Some st' →
  arenas_owned (contexts st') (models st') (arenas st').
Proof.
  intros Hok Hown Hstep.
  destruct call as [env path n|env ctx n|ctx|ctx|ctx b]; simpl in Hstep.
  - destruct (rwkv_init_from_file _ _ env path n st) as [[h st1]|] eqn:Hinit;
      [|done].
    injection Hstep as <-.
    apply init_outcomes in Hinit
      as [(-> & -> & ->)
         |[(mp & m & -> & Hmp & -> & Hbare & ->)
          |[(mp & m & a & -> & Hmp & -> & Ha & Hfresh & ->)
           |(c & x & mp & m & a & g & Hc & -> & Hmp & -> & Hx & Hl & Ha
             & Hfresh & Hg & Hgfresh & ->)]]].
    + done.
    + by apply arenas_owned_new_bare_model.
    + by apply arenas_owned_new_model.
    + apply (arenas_owned_new_context _ _ _ c x g mp m); try done.
      * apply lookup_insert_eq.
      * by apply arenas_owned_new_model.
  - destruct (rwkv_clone_context _ _ env ctx n st) as [[h st1]|] eqn:Hclone;
      [|done].
    injection Hstep as <-.
    apply clone_outcomes in Hclone
      as [(-> & -> & ->)|(c0 & src & mp & m & Hc0 & Hsrc & Hm & -> & Hrest)].
    + done.
    + assert (arenas_owned (contexts st)
                (<[mp := set_reference_count (reference_count m + 1) m]>
                   (models st)) (arenas st)) as Hown1.
      { by apply (arenas_owned_update_model _ _ _ mp m). }
      destruct Hrest as [(-> & ->)
                        |(c & x & g & Hc & -> & Hx & Hl & Hg & Hfresh & ->)].
      * done.
      * apply (arenas_owned_new_context _ _ _ c x g mp
                 (set_reference_count (reference_count m + 1) m));
          try done.
        -- apply lookup_insert_eq.
        -- simpl. destruct Hown as (_ & _ & _ & _ & _ & A6).
           by apply (A6 c0 src mp m).
  - destruct ctx as [c|]; [|simpl in Hstep; by injection Hstep as <-].
    pose proof Hstep as Heff.
    apply free_effect in Heff as (x & mp & m & Hc & Hx & Hm & Hcs & Hms).
    pose proof (free_arenas c x mp m st st' Hc Hx Hm Hstep) as Har.
    rewrite Hcs, Hms.
    pose proof Hown as (A1 & _).
    destruct (A1 c x Hc) as (Hlast & g & Hg & Hgin).
    assert (arenas_owned (delete c (contexts st)) (models st)
              (arenas st ∖ {[g]})) as Hown1.
    { apply (arenas_owned_drop_context _ _ (arenas st) _ c x); try done.
      intros a. rewrite elem_of_difference, elem_of_singleton, Hg.
      split; intros [? Hne]; (split; [done|congruence]). }
    destruct (Z.eqb_spec (reference_count m - 1) 0) as [Hz|Hnz].
    + apply (arenas_owned_drop_model _ _ (arenas st ∖ {[g]}) _ mp m);
        try done.
      * intros c1 x1 Hc1 Hx1. apply lookup_delete_Some in Hc1 as [Hne Hc1].
        assert (c ≠ c1) as Hne' by congruence.
        pose proof (heap_ok_shared _ _ c c1 x x1 mp m Hok Hne' Hc Hc1 Hx Hx1
                      Hm). lia.
      * intros a. rewrite Har, elem_of_difference, elem_of_singleton, Hg.
        split.
        -- intros (Hin & Hne & _ & Hw). repeat split; try done.
           ++ congruence.
           ++ by apply Hw.
        -- intros ((Hin & Hne) & Hw). repeat split; try done.
           ++ congruence.
           ++ lia.
    + apply (arenas_owned_update_model _ _ _ mp m); try done.
      assert (arenas st' = arenas st ∖ {[g]}) as ->; [|done].
      apply set_eq. intros a.
      rewrite Har, elem_of_difference, elem_of_singleton, Hg. split.
      * intros (Hin & Hne & _). split; [done|congruence].
      * intros (Hin & Hne). repeat split; try done; try lia. congruence.
  - destruct ctx as [c|]; simpl in Hstep.
    + destruct (contexts st !! c) as [x|] eqn:Hc; [|done].
      simpl in Hstep. injection Hstep as <-. simpl.
      by apply (arenas_owned_update_context _ _ _ c x).
    + by injection Hstep as <-.
  - destruct ctx as [c|]; simpl in Hstep.
    + destruct (contexts st !! c) as [x|] eqn:Hc; [|done].
      simpl in Hstep. injection Hstep as <-. simpl.
      by apply (arenas_owned_update_context _ _ _ c x).
    + by injection Hstep as <-.
Qed.

Lemma run_calls_arenas_owned calls st st' :
  store_ok st → arenas_owned (contexts st) (models st) (arenas st) →
  run calls st = Some st' →
  arenas_owned (contexts st') (models st') (arenas st').
Proof.
  revert st. induction calls as [|call rest IH]; intros st Hok Hown Hrun.
  - by simplify_eq/=.
  - simpl in Hrun.
    destruct (step call st) as [st1|] eqn:Hstep; simplify_eq/=.
    eauto using api_step_store_ok, api_step_arenas_owned.
Qed.

End Ownership.

(** X19: on every run from a store without contexts and models, every live
    context owns a live single-step arena that no other live context uses,
    and the model it points to is live and holds a live weight arena
    distinct from it: no call has released an arena that a live context
    still needs. *)
Theorem live_contexts_own_live_arenas
    (RWKV_ERROR_CTX RWKV_ERROR_ALLOC : rwkv_error_flags)
    (calls : list api_call) (boot st : state) (c : ptr) (x : rwkv_context) :
  empty_store boot →
  run_calls RWKV_ERROR_CTX RWKV_ERROR_ALLOC calls boot = Some st →
  contexts st !! c = Some x →
  ∃ mp m g w,
    model x = Some mp ∧ models st !! mp = Some m
    ∧ ggml_ctx (serial_graph x) = Some g ∧ g ∈ arenas st
    ∧ model_ggml_ctx m = Some w ∧ w ∈ arenas st
    ∧ g ≠ w
    ∧ (∀ c' x', c' ≠ c → contexts st !! c' = Some x' →
                ggml_ctx (serial_graph x') ≠ Some g).
Proof.
  intros Hboot Hrun Hc.
  assert (store_ok boot) as Hok0 by by apply empty_store_ok.
  assert (arenas_owned (contexts boot) (models boot) (arenas boot)) as Hown0.
  { destruct Hboot as [-> ->]. apply arenas_owned_empty. }
  pose proof (run_calls_store_ok _ _ _ _ _ Hok0 Hrun) as [Hlive _].
  pose proof (run_calls_arenas_owned _ _ _ _ _ Hok0 Hown0 Hrun)
    as (A1 & A2 & A3 & A4 & A5 & A6).
  destruct (Hlive c x Hc) as (mp & m & Hx & Hm).
  destruct (A1 c x Hc) as (_ & g & Hg & Hgin).
  destruct (A6 c x mp m Hc Hx Hm) as [w Hw].
  exists mp, m, g, w. repeat split; try done.
  - by apply (A2 mp m).
  - intros ->. by apply (A5 c x mp m w).
  - intros c' x' Hne Hc' Hg'. apply Hne. apply (A3 c' c x' x); congruence.
Qed.

Lemma live_contexts_own_live_arenas_witness :
  ∃ mp m g w,
    model cloned_context = Some mp ∧ models cloned_store !! mp = Some m
    ∧ ggml_ctx (serial_graph cloned_context) = Some g
    ∧ g ∈ arenas cloned_store
    ∧ model_ggml_ctx m = Some w ∧ w ∈ arenas cloned_store.
Proof.
  destruct (live_contexts_own_live_arenas 1536 1 init_and_clone boot_store
              cloned_store 2%positive cloned_context)
    as (mp & m & g & w & H1 & H2 & H3 & H4 & H5 & H6 & _).
  - split; reflexivity.
  - vm_compute. reflexivity.
  - reflexivity.
  - exists mp, m, g, w. done.
Defined.

(** ** No arena without an owner *)

(** A change of the store keeps the account when every arena live
    afterwards either was live before or has an owner afterwards, and every
    owner of an arena still live is still there. *)
Lemma arenas_accounted_step B cs ms A cs' ms' A' :
  arenas_accounted B cs ms A →
  (∀ a, a ∈ A' →
        a ∈ A
        ∨ (∃ c x, cs' !! c = Some x ∧ ggml_ctx (serial_graph x) = Some a)
        ∨ (∃ mp m, ms' !! mp = Some m ∧ model_ggml_ctx m = Some a)) →
  (∀ a c x, a ∈ A' → cs !! c = Some x →
            ggml_ctx (serial_graph x) = Some a →
            ∃ x', cs' !! c = Some x' ∧ ggml_ctx (serial_graph x') = Some a) →
  (∀ a mp m, a ∈ A' → ms !! mp = Some m → model_ggml_ctx m = Some a →
             ∃ m', ms' !! mp = Some m' ∧ model_ggml_ctx m' = Some a) →
  arenas_accounted B cs' ms' A'.
Proof.
  intros Hacc Hnew Hcs Hms a Ha.
  destruct (Hnew a Ha) as [Hold|[Hown|Hown]]; [|by right; left|by right; right].
  destruct (Hacc a Hold) as [HB|[(c & x & Hc & Hg)|(mp & m & Hm & Hw)]].
  - by left.
  - right; left. destruct (Hcs a c x Ha Hc Hg) as (x' & Hc' & Hg'). eauto.
  - right; right. destruct (Hms a mp m Ha Hm Hw) as (m' & Hm' & Hw'). eauto.
Qed.

Section Accounting.

Variables RWKV_ERROR_CTX RWKV_ERROR_ALLOC : rwkv_error_flags.

Abbreviation step := (api_step RWKV_ERROR_CTX RWKV_ERROR_ALLOC).
Abbreviation run := (run_calls RWKV_ERROR_CTX RWKV_ERROR_ALLOC).

Lemma api_step_arenas_accounted B call st st' :
  arenas_accounted B (contexts st) (models st) (arenas st) →
  step call st = Some st' →
  arenas_accounted B (contexts st') (models st') (arenas st').
Proof.
  intros Hacc Hstep.
  destruct call as [env path n|env ctx n|ctx|ctx|ctx b]; simpl in Hstep.
  - destruct (rwkv_init_from_file _ _ env path n st) as [[h st1]|] eqn:Hinit;
      [|done].
    injection Hstep as <-.
    apply init_outcomes in Hinit
      as [(-> & -> & ->)
         |[(mp & m & -> & Hmp & -> & Hbare & ->)
          |[(mp & m & a & -> & Hmp & -> & Ha & Hfresh & ->)
           |(c & x & mp & m & a & g & Hc & -> & Hmp & -> & Hx & Hl & Ha
             & Hfresh & Hg & Hgfresh & ->)]]].
    + done.
    + apply (arenas_accounted_step B _ _ _ _ _ _ Hacc).
      * intros a Ha. by left.
      * intros a c x Ha Hc Hg. eauto.
      * intros a mp1 m1 Ha Hm1 Hw. exists m1.
        rewrite lookup_insert_ne; [done|congruence].
    + apply (arenas_accounted_step B _ _ _ _ _ _ Hacc).
      * intros a1 Ha1. apply elem_of_union in Ha1 as [Ha1|Ha1]; [|by left].
        apply elem_of_singleton in Ha1 as ->. right; right.
        exists mp, m. by rewrite lookup_insert_eq.
      * intros a1 c x Ha1 Hc Hg. eauto.
      * intros a1 mp1 m1 Ha1 Hm1 Hw. exists m1.
        rewrite lookup_insert_ne; [done|congruence].
    + apply (arenas_accounted_step B _ _ _ _ _ _ Hacc).
      * intros a1 Ha1. apply elem_of_union in Ha1 as [Ha1|Ha1].
        { apply elem_of_singleton in Ha1 as ->. right; left.
          exists c, x. by rewrite lookup_insert_eq. }
        apply elem_of_union in Ha1 as [Ha1|Ha1]; [|by left].
        apply elem_of_singleton in Ha1 as ->. right; right.
        exists mp, m. by rewrite lookup_insert_eq.
      * intros a1 c1 x1 Ha1 Hc1 Hg1. exists x1.
        rewrite lookup_insert_ne; [done|congruence].
      * intros a1 mp1 m1 Ha1 Hm1 Hw. exists m1.
        rewrite lookup_insert_ne; [done|congruence].
  - destruct (rwkv_clone_context _ _ env ctx n st) as [[h st1]|] eqn:Hclone;
      [|done].
    injection Hstep as <-.
    apply clone_outcomes in Hclone
      as [(-> & -> & ->)|(c0 & src & mp & m & Hc0 & Hsrc & Hm & -> & Hrest)].
    + done.
    + assert (∀ a mp1 m1, models st !! mp1 = Some m1 →
                model_ggml_ctx m1 = Some a →
                ∃ m',
                  <[mp := set_reference_count (reference_count m + 1) m]>
                    (models st) !! mp1 = Some m'
                  ∧ model_ggml_ctx m' = Some a) as Hkeep.
      { intros a mp1 m1 Hm1 Hw. destruct (decide (mp = mp1)) as [<-|Hne].
        - eexists. rewrite lookup_insert_eq. split; [done|].
          simpl. congruence.
        - exists m1. by rewrite lookup_insert_ne. }
      destruct Hrest as [(-> & ->)
                        |(c & x & g & Hc & -> & Hx & Hl & Hg & Hfresh & ->)].
      * apply (arenas_accounted_step B _ _ _ _ _ _ Hacc).
        -- intros a Ha. by left.
        -- intros a c x Ha Hc Hg. eauto.
        -- intros a mp1 m1 _. apply Hkeep.
      * apply (arenas_accounted_step B _ _ _ _ _ _ Hacc).
        -- intros a Ha. apply elem_of_union in Ha as [Ha|Ha]; [|by left].
           apply elem_of_singleton in Ha as ->. right; left.
           exists c, x. by rewrite lookup_insert_eq.
        -- intros a c1 x1 Ha Hc1 Hg1. exists x1.
           rewrite lookup_insert_ne; [done|congruence].
        -- intros a mp1 m1 _. apply Hkeep.
  - destruct ctx as [c|]; [|simpl in Hstep; by injection Hstep as <-].
    pose proof Hstep as Heff.
    apply free_effect in Heff as (x & mp & m & Hc & Hx & Hm & Hcs & Hms).
    pose proof (free_arenas c x mp m st st' Hc Hx Hm Hstep) as Har.
    rewrite Hcs, Hms.
    apply (arenas_accounted_step B _ _ _ _ _ _ Hacc).
    + intros a Ha. left. by apply Har in Ha as [Ha _].
    + intros a c1 x1 Ha Hc1 Hg1. exists x1. split; [|done].
      apply lookup_delete_Some. split; [|done].
      intros <-. apply Har in Ha as (_ & Hne & _).
      assert (x1 = x) as -> by congruence. done.
    + intros a mp1 m1 Ha Hm1 Hw. apply Har in Ha as (_ & _ & _ & Hkeep).
      destruct (decide (mp = mp1)) as [<-|Hne].
      * assert (m1 = m) as -> by congruence.
        destruct (Z.eqb_spec (reference_count m - 1) 0) as [Hz|Hnz].
        { by destruct (Hkeep Hz). }
        eexists. rewrite lookup_insert_eq. split; [done|]. done.
      * exists m1. split; [|done].
        destruct (reference_count m - 1 =? 0).
        -- by rewrite lookup_delete_ne.
        -- by rewrite lookup_insert_ne.
  - destruct ctx as [c|]; simpl in Hstep.
    + destruct (contexts st !! c) as [x|] eqn:Hc; [|done].
      simpl in Hstep. injection Hstep as <-. simpl.
      apply (arenas_accounted_step B _ _ _ _ _ _ Hacc).
      * intros a Ha. by left.
      * intros a c1 x1 Ha Hc1 Hg1. destruct (decide (c = c1)) as [<-|Hne].
        -- eexists. rewrite lookup_insert_eq. split; [done|].
           assert (x1 = x) as -> by congruence. done.
        -- exists x1. by rewrite lookup_insert_ne.
      * intros a mp1 m1 Ha Hm1 Hw. eauto.
    + by injection Hstep as <-.
  - destruct ctx as [c|]; simpl in Hstep.
    + destruct (contexts st !! c) as [x|] eqn:Hc; [|done].
      simpl in Hstep. injection Hstep as <-. simpl.
      apply (arenas_accounted_step B _ _ _ _ _ _ Hacc).
      * intros a Ha. by left.
      * intros a c1 x1 Ha Hc1 Hg1. destruct (decide (c = c1)) as [<-|Hne].
        -- eexists. rewrite lookup_insert_eq. split; [done|].
           assert (x1 = x) as -> by congruence. done.
        -- exists x1. by rewrite lookup_insert_ne.
      * intros a mp1 m1 Ha Hm1 Hw. eauto.
    + by injection Hstep as <-.
Qed.

Lemma run_calls_arenas_accounted B calls st st' :
  arenas_accounted B (contexts st) (models st) (arenas st) →
  run calls st = Some st' →
  arenas_accounted B (contexts st') (models st') (arenas st').
Proof.
  revert st. induction calls as [|call rest IH]; intros st Hacc Hrun.
  - by simplify_eq/=.
  - simpl in Hrun.
    destruct (step call st) as [st1|] eqn:Hstep; simplify_eq/=.
    eauto using api_step_arenas_accounted.
Qed.

End Accounting.

(** X20: on a run from an empty store on which no load and no graph build
    fails, once every context has been freed nothing is left allocated: no
    model is live, and no arena is live that was not live at the start. *)
Theorem nothing_left_after_last_free
    (RWKV_ERROR_CTX RWKV_ERROR_ALLOC : rwkv_error_flags)
    (calls : list api_call) (boot st : state) :
  empty_store boot → Forall clean_call calls →
  run_calls RWKV_ERROR_CTX RWKV_ERROR_ALLOC calls boot = Some st →
  contexts st = ∅ →
  models st = ∅ ∧ arenas st ⊆ arenas boot.
Proof.
  intros Hboot Hclean Hrun Hnone.
  assert (counts_tight (contexts st) (models st)) as Ht.
  { eapply run_calls_tight; [|done|done].
    destruct Hboot as [-> ->]. intros ? ? H. by rewrite lookup_empty in H. }
  assert (models st = ∅) as Hms.
  { apply map_empty. intros mp.
    destruct (models st !! mp) as [m|] eqn:Hm; [|done].
    specialize (Ht mp m Hm). rewrite Hnone in Ht.
    unfold refs in Ht. rewrite map_filter_empty, map_size_empty in Ht. lia. }
  split; [done|].
  assert (arenas_accounted (arenas boot) (contexts st) (models st)
            (arenas st)) as Hacc.
  { eapply run_calls_arenas_accounted; [|done]. intros a Ha. by left. }
  intros a Ha. destruct (Hacc a Ha) as [HB|[(c & x & Hc & _)|(mp & m & Hm & _)]].
  - done.
  - by rewrite Hnone, lookup_empty in Hc.
  - by rewrite Hms, lookup_empty in Hm.
Qed.

Lemma nothing_left_after_last_free_witness :
  ∃ st,
    run_calls 1536 1
      (init_and_clone ++ [CallFree (Some 1%positive);
                          CallFree (Some 2%positive)]) boot_store = Some st
    ∧ models st = ∅ ∧ arenas st ⊆ arenas boot_store.
Proof.
  destruct (run_calls 1536 1
              (init_and_clone ++ [CallFree (Some 1%positive);
                                  CallFree (Some 2%positive)]) boot_store)
    as [st|] eqn:Hrun; [|vm_compute in Hrun; discriminate].
  exists st. split; [reflexivity|].
  apply (nothing_left_after_last_free 1536 1
           (init_and_clone ++ [CallFree (Some 1%positive);
                               CallFree (Some 2%positive)]) boot_store st).
  - split; reflexivity.
  - unfold init_and_clone. repeat constructor; simpl; try done.
  - exact Hrun.
  - vm_compute in Hrun. by injection Hrun as <-.
Defined.
